(** * Realm Quiz Wars: the question selection engine

    A shallow embedding of [src/server/core/question-database.ts]
    (class [QuestionDatabase]), of the corpus literals it loads and of its
    callers in [src/server/index.ts], followed by the properties of the
    selection, cooldown and shuffling code.

    Conventions of the embedding.
    - JavaScript numbers that the code uses as integers ([count], [correct],
      array indices, the hash) are [Z] or [nat]; strings are byte strings.
    - A JavaScript [Set<string>] is kept as the list of its members in
      insertion order, which is the order [Array.from] enumerates.
    - [Math.random()] is an oracle: a tape of draws consumed left to right.
    - Object identity ([Array.prototype.includes] on question objects) is the
      position of the object in the corpus array it was read from. *)

From Stdlib Require Import ZArith DecimalString Ascii.
From stdpp Require Import gmap strings list fin_maps.

Open Scope Z_scope.

(** ** Data model ([src/shared/types/api.ts]) *)

Inductive Difficulty := easy | medium | hard.

Global Instance Difficulty_eq_dec : EqDecision Difficulty.
Proof. solve_decision. Defined.

Record Question := mkQuestion {
  question : string;
  options : list string;
  correct : Z;
  difficulty : Difficulty;
  topic : string;
  source : option string;
  originalOrder : option bool   (* set by shuffleQuestionOptions only *)
}.

(** A question object: the position it has in its corpus array (its
    reference) and its fields. *)
Definition Obj : Type := nat * Question.

(** [[...realmQuestions]]: the array of the realm's objects. *)
Definition spread (qs : list Question) : list Obj := zip (seq 0 (length qs)) qs.

(** ** Strings and numbers *)

(** [String(n)] for an integer [n]. *)
Definition string_of_Z (n : Z) : string := NilZero.string_of_int (Z.to_int n).

(** [toLowerCase] on the ASCII letters. *)
Definition lower_ascii (c : ascii) : ascii :=
  let n := nat_of_ascii c in
  if (65 <=? n)%nat && (n <=? 90)%nat then ascii_of_nat (n + 32) else c.

Fixpoint toLowerCase (s : string) : string :=
  match s with
  | EmptyString => EmptyString
  | String c s' => String (lower_ascii c) (toLowerCase s')
  end.

(** [realm.replace(/^r\//, '').toLowerCase()] *)
Definition normalizeRealmName (realm : string) : string :=
  toLowerCase
    match realm with
    | String "r" (String "/" rest) => rest
    | _ => realm
    end.

(** [ToInt32]: wrap an integer into the signed 32-bit range. *)
Definition toInt32 (n : Z) : Z := (n + 2 ^ 31) mod 2 ^ 32 - 2 ^ 31.

(** [hashCode]: [hash = ((hash << 5) - hash) + char; hash = hash & hash],
    then [Math.abs]. *)
Fixpoint hashLoop (s : string) (hash : Z) : Z :=
  match s with
  | EmptyString => hash
  | String c s' =>
      let char := Z.of_nat (nat_of_ascii c) in
      hashLoop s' (toInt32 ((toInt32 (Z.shiftl hash 5) - hash) + char))
  end.

Definition hashCode (str : string) : Z := Z.abs (hashLoop str 0).

(** ** Arrays *)

(** [a[i]] for an integer index; [None] is [undefined]. *)
Definition at_index {T} (a : list T) (i : Z) : option T :=
  if i <? 0 then None else a !! Z.to_nat i.

(** [a.slice(start, end)] for integer arguments (negative ones count from
    the end of the array). *)
Definition slice {T} (a : list T) (start end_ : Z) : list T :=
  let len := Z.of_nat (length a) in
  let k := if start <? 0 then Z.max (len + start) 0 else Z.min start len in
  let final := if end_ <? 0 then Z.max (len + end_) 0 else Z.min end_ len in
  take (Z.to_nat (final - k)) (drop (Z.to_nat k) a).

(** [a.slice(start)] *)
Definition slice_from {T} (a : list T) (start : Z) : list T :=
  slice a start (Z.of_nat (length a)).

(** [a.indexOf(x)] on an array of strings; [x] may be [undefined], which no
    element of a string array equals. *)
Fixpoint indexOf_from (a : list string) (x : string) (i : Z) : Z :=
  match a with
  | [] => -1
  | y :: a' => if bool_decide (y = x) then i else indexOf_from a' x (i + 1)
  end.

Definition indexOf (a : list string) (x : option string) : Z :=
  match x with
  | Some s => indexOf_from a s 0
  | None => -1
  end.

(** [[a[i], a[j]] = [a[j], a[i]]] for indices inside the array; the loops
    below only produce such indices (see [floorMul_lt]). *)
Definition swap {T} (a : list T) (i j : nat) : list T :=
  match a !! i, a !! j with
  | Some x, Some y => <[j := x]> (<[i := y]> a)
  | _, _ => a
  end.

(** ** Randomness *)

(** The values a random source returns, in the order of the calls. A draw
    stands for a double [u] with [0 <= u < 1]. *)
Definition Tape : Type := nat → nat.

Definition next (t : Tape) : Tape := λ k, t (S k).

(** [Math.floor(u * n)] for a draw [u] and a positive integer [n]: an
    integer between [0] and [n - 1], every one of which some draw gives. *)
Definition floorMul (u : nat) (n : nat) : nat := (u mod n)%nat.

(** The loop
    [for (let i = a.length - 1; i > 0; i--) { j = floor(random() * (i + 1)); swap }]
    entered with loop variable [i]. *)
Fixpoint fisherYates {T} (i : nat) (random : Tape) (a : list T) : list T * Tape :=
  match i with
  | O => (a, random)
  | S i' =>
      let j := floorMul (random O) (S i' + 1) in
      fisherYates i' (next random) (swap a (S i') j)
  end.

Definition shuffleArray {T} (array : list T) (random : Tape) : list T * Tape :=
  fisherYates (length array - 1) random array.

(** The loop
    [for (let i = 0; i < a.length; i++) { j = floor(random() * a.length); swap }]
    with [todo] iterations left and loop variable [i]. *)
Fixpoint randomPass {T} (todo i : nat) (random : Tape) (a : list T) : list T * Tape :=
  match todo with
  | O => (a, random)
  | S todo' =>
      let j := floorMul (random O) (length a) in
      randomPass todo' (S i) (next random) (swap a i j)
  end.

(** ** The question database *)

(** The private fields of the class: the question bank, filled once by
    [initializeQuestionBank], and the recently used identities per realm. *)
Record QuestionDatabase := mkQuestionDatabase {
  questionBank : gmap string (list Question);
  recentlyUsedQuestions : gmap string (list string)
}.

Definition questionCooldownPeriod : Z := 10.

(** [`${question.question}-${question.correct}`] *)
Definition getQuestionId (q : Question) : string :=
  question q +:+ "-" +:+ string_of_Z (correct q).

(** [questions[0].topic.toLowerCase()] when there is a first question with a
    non-empty topic, ['general'] otherwise. *)
Definition getCurrentRealm (questions : list Obj) : string :=
  match questions with
  | (_, q) :: _ =>
      if bool_decide (topic q = "") then "general" else toLowerCase (topic q)
  | [] => "general"
  end.

(** [Set.prototype.add] and [has] on the insertion-ordered members. *)
Definition set_add (s : list string) (x : string) : list string :=
  if bool_decide (x ∈ s) then s else s ++ [x].

Definition set_has (s : list string) (x : string) : bool := bool_decide (x ∈ s).

(** [filterRecentlyUsedQuestions(questions, realm)] on the cooldown map
    [used]: the questions to select from and the map afterwards. *)
Definition filterRecentlyUsedQuestions (questions : list Obj) (realm : string)
    (used : gmap string (list string)) : list Obj * gmap string (list string) :=
  let recentlyUsed := default [] (used !! realm) in
  let availableQuestions :=
    filter (λ q, set_has recentlyUsed (getQuestionId q.2) = false) questions in
  if Z.of_nat (length availableQuestions) <? 6
  then (questions, <[realm := []]> used)
  else (availableQuestions, used).

(** [trackRecentlyUsedQuestions(questions, realm)]: the realm's set, created
    empty when absent, receives the identities one by one; beyond
    [questionCooldownPeriod * 6] members it is replaced by
    [new Set(Array.from(recentlyUsed).slice(-questionCooldownPeriod * 3))]. *)
Definition trackRecentlyUsedQuestions (questions : list Obj) (realm : string)
    (used : gmap string (list string)) : gmap string (list string) :=
  let recentlyUsed :=
    foldl set_add (default [] (used !! realm)) (getQuestionId ∘ snd <$> questions) in
  if questionCooldownPeriod * 6 <? Z.of_nat (length recentlyUsed)
  then <[realm := slice_from recentlyUsed (- questionCooldownPeriod * 3)]> used
  else <[realm := recentlyUsed]> used.

(** [Math.ceil(count * 0.4)] for an integer [count]. The double nearest to
    0.4 exceeds it by a factor [1 + 2^-54], so the product rounds to the
    exact [2 * count / 5] when that is an integer and stays strictly
    between the same two integers otherwise. *)
Definition ceil_04 (count : Z) : Z := (2 * count + 4) / 5.

(** [selectedQuestions.includes(q)]: comparison of object references. *)
Definition includes (selected : list Obj) (q : Obj) : bool :=
  bool_decide (q.1 ∈ selected.*1).

Definition has_difficulty (d : Difficulty) (q : Obj) : Prop := difficulty q.2 = d.

Global Instance has_difficulty_dec d q : Decision (has_difficulty d q).
Proof. unfold has_difficulty. apply _. Defined.

(** One tier of the balanced selection:
    [if (tier.length > 0) selected.push(...shuffleArray(tier).slice(0, Math.min(target, tier.length)))] *)
Definition pushTier (tier : list Obj) (target : Z) (selected : list Obj)
    (random : Tape) : list Obj * Tape :=
  if 0 <? Z.of_nat (length tier)
  then
    let '(shuffled, random) := shuffleArray tier random in
    (selected ++ slice shuffled 0 (Z.min target (Z.of_nat (length tier))), random)
  else (selected, random).

(** The body of [getBalancedQuestionMix] in three parts. First the
    tier-targeted picks: the three buckets, the three targets and the three
    pushes. *)
Definition tierPicks (availableQuestions : list Obj) (count : Z) (random : Tape)
    : list Obj * Tape :=
  let easyQuestions := filter (has_difficulty easy) availableQuestions in
  let mediumQuestions := filter (has_difficulty medium) availableQuestions in
  let hardQuestions := filter (has_difficulty hard) availableQuestions in
  let easyCount := ceil_04 count in
  let mediumCount := ceil_04 count in
  let hardCount := count - easyCount - mediumCount in
  let '(selected, random) := pushTier easyQuestions easyCount [] random in
  let '(selected, random) := pushTier mediumQuestions mediumCount selected random in
  pushTier hardQuestions hardCount selected random.

(** Then the fill:
    [if (selected.length < count) selected.push(...shuffleArray(available.filter(q => !selected.includes(q))).slice(0, count - selected.length))] *)
Definition fill (availableQuestions selected : list Obj) (count : Z) (random : Tape)
    : list Obj * Tape :=
  if Z.of_nat (length selected) <? count
  then
    let '(remaining, random) :=
      shuffleArray (filter (λ q, includes selected q = false) availableQuestions) random in
    (selected ++ slice remaining 0 (count - Z.of_nat (length selected)), random)
  else (selected, random).

Definition selectQuestions (availableQuestions : list Obj) (count : Z) (random : Tape)
    : list Obj * Tape :=
  let '(selected, random) := tierPicks availableQuestions count random in
  fill availableQuestions selected count random.

(** [getBalancedQuestionMix(questions, count, sessionId)], which does not
    use [sessionId]: the cooldown filter, the selection, the record of all
    the selected questions, and the cut to [count]. *)
Definition getBalancedQuestionMix (questions : list Obj) (count : Z)
    (used : gmap string (list string)) (random : Tape)
    : list Obj * gmap string (list string) * Tape :=
  let realm := getCurrentRealm questions in
  let '(availableQuestions, used) := filterRecentlyUsedQuestions questions realm used in
  let '(selectedQuestions, random) := selectQuestions availableQuestions count random in
  let used := trackRecentlyUsedQuestions selectedQuestions realm used in
  (slice selectedQuestions 0 count, used, random).

(** The body of the [map] callback of [shuffleQuestionOptions]. *)
Definition shuffleOptions (q : Question) (random : Tape) : Question * Tape :=
  let originalOptions := options q in
  let correctAnswer := at_index originalOptions (correct q) in
  let '(shuffledOptions, random) := shuffleArray originalOptions random in
  let newCorrectIndex := indexOf shuffledOptions correctAnswer in
  ({| question := question q;
      options := shuffledOptions;
      correct := newCorrectIndex;
      difficulty := difficulty q;
      topic := topic q;
      source := source q;
      originalOrder := Some false |}, random).

Fixpoint shuffleQuestionOptions (questions : list Question) (random : Tape)
    : list Question * Tape :=
  match questions with
  | [] => ([], random)
  | q :: rest =>
      let '(q', random) := shuffleOptions q random in
      let '(rest', random) := shuffleQuestionOptions rest random in
      (q' :: rest', random)
  end.

(** [clearRecentlyUsedQuestions(realm?)]; an absent or empty [realm] is
    falsy and clears every realm. *)
Definition clearRecentlyUsedQuestions (db : QuestionDatabase) (realm : option string)
    : QuestionDatabase :=
  match realm with
  | Some (String c r) =>
      mkQuestionDatabase (questionBank db) (delete (String c r) (recentlyUsedQuestions db))
  | _ => mkQuestionDatabase (questionBank db) ∅
  end.

(** ** The corpus

    The question literals of [question-database.ts] and of
    [comprehensive-questions.ts], in source order. *)

Definition Q (text : string) (opts : list string) (c : Z) (d : Difficulty)
    (t src : string) : Question :=
  mkQuestion text opts c d t (Some src) None.

Definition COMPREHENSIVE_QUESTIONS_gaming : list Question := [
  Q "Which company developed the Super Mario series?"
    ["Sony"; "Nintendo"; "Microsoft"; "Sega"] 1 easy "Gaming" "fallback";
  Q "What is the highest-selling video game of all time?"
    ["Tetris"; "Minecraft"; "Grand Theft Auto V"; "Fortnite"] 1 easy "Gaming" "fallback";
  Q "Which gaming console was released first?"
    ["PlayStation"; "Xbox"; "Nintendo 64"; "Sega Genesis"] 3 easy "Gaming" "fallback";
  Q "What does 'RPG' stand for in gaming?"
    ["Real Player Game"; "Role Playing Game"; "Random Player Generator"; "Rapid Play Gaming"] 1 easy "Gaming" "fallback";
  Q "Which character is the mascot of Sonic the Hedgehog series?"
    ["Tails"; "Knuckles"; "Sonic"; "Shadow"] 2 easy "Gaming" "fallback";
  Q "What does 'FPS' stand for in gaming?"
    ["First Person Shooter"; "Frames Per Second"; "Fast Paced Strategy"; "Both A and B"] 3 easy "Gaming" "fallback";
  Q "Which game features the character Master Chief?"
    ["Call of Duty"; "Halo"; "Gears of War"; "Destiny"] 1 easy "Gaming" "fallback";
  Q "What is the main currency in World of Warcraft?"
    ["Silver"; "Gold"; "Copper"; "Platinum"] 1 easy "Gaming" "fallback";
  Q "Which company created the PlayStation?"
    ["Nintendo"; "Microsoft"; "Sony"; "Sega"] 2 easy "Gaming" "fallback"
].

Definition COMPREHENSIVE_QUESTIONS_science : list Question := [
  Q "What is the chemical symbol for water?"
    ["H2O"; "CO2"; "NaCl"; "O2"] 0 easy "Science" "fallback";
  Q "How many bones are in the adult human body?"
    ["206"; "208"; "210"; "204"] 0 easy "Science" "fallback";
  Q "What planet is known as the Red Planet?"
    ["Venus"; "Jupiter"; "Mars"; "Saturn"] 2 easy "Science" "fallback";
  Q "What gas do plants absorb from the atmosphere during photosynthesis?"
    ["Oxygen"; "Nitrogen"; "Carbon Dioxide"; "Hydrogen"] 2 easy "Science" "fallback";
  Q "What is the speed of light in a vacuum?"
    ["300,000 km/s"; "299,792,458 m/s"; "186,000 miles/s"; "All of the above"] 3 easy "Science" "fallback";
  Q "What is the largest organ in the human body?"
    ["Brain"; "Liver"; "Skin"; "Heart"] 2 easy "Science" "fallback";
  Q "What is the chemical symbol for gold?"
    ["Go"; "Gd"; "Au"; "Ag"] 2 easy "Science" "fallback";
  Q "How many chambers does a human heart have?"
    ["2"; "3"; "4"; "5"] 2 easy "Science" "fallback";
  Q "What is the hardest natural substance on Earth?"
    ["Gold"; "Iron"; "Diamond"; "Quartz"] 2 easy "Science" "fallback"
].

Definition COMPREHENSIVE_QUESTIONS_technology : list Question := [
  Q "What does 'CPU' stand for?"
    ["Central Processing Unit"; "Computer Personal Unit"; "Central Program Unit"; "Computer Processing Unit"] 0 easy "Technology" "fallback";
  Q "Which company created the iPhone?"
    ["Google"; "Samsung"; "Apple"; "Microsoft"] 2 easy "Technology" "fallback";
  Q "What does 'WWW' stand for?"
    ["World Wide Web"; "World Web Wide"; "Wide World Web"; "Web World Wide"] 0 easy "Technology" "fallback";
  Q "Which programming language is known for its use in web development?"
    ["Python"; "JavaScript"; "C++"; "Java"] 1 easy "Technology" "fallback";
  Q "What does 'AI' stand for?"
    ["Automated Intelligence"; "Artificial Intelligence"; "Advanced Intelligence"; "Algorithmic Intelligence"] 1 easy "Technology" "fallback"
].

Definition getBasicFallbackQuestions : list Question := [
  Q "What does 'OP' stand for on Reddit?"
    ["Original Poster"; "Online Person"; "Open Post"; "Other People"] 0 easy "Reddit" "fallback";
  Q "What is the purpose of upvoting on Reddit?"
    ["To like a post"; "To show agreement"; "To increase visibility"; "All of the above"] 3 easy "Reddit" "fallback";
  Q "What is a subreddit?"
    ["A user profile"; "A topic-specific community"; "A type of post"; "A Reddit feature"] 1 easy "Reddit" "fallback";
  Q "What does 'karma' represent on Reddit?"
    ["Points from upvotes/downvotes"; "Time spent on Reddit"; "Number of posts"; "Account age"] 0 easy "Reddit" "fallback";
  Q "What is Reddit's slogan?"
    ["The Front Page of the Internet"; "Where Communities Thrive"; "Social News Aggregation"; "The Voice of the Internet"] 0 easy "Reddit" "fallback";
  Q "What does 'AMA' stand for?"
    ["Ask Me Anything"; "Always Make Answers"; "All My Answers"; "Ask More Again"] 0 easy "Reddit" "fallback"
].

Definition generateAdditionalGamingQuestions : list Question := [
  Q "What is the name of the main character in the Assassin's Creed series?"
    ["Ezio Auditore"; "Altair Ibn-La'Ahad"; "Varies by game"; "Desmond Miles"] 2 medium "Gaming" "fallback";
  Q "Which game engine powers Half-Life 2?"
    ["Unreal Engine"; "Source Engine"; "id Tech"; "CryEngine"] 1 medium "Gaming" "fallback";
  Q "What is the maximum level cap in World of Warcraft Classic?"
    ["50"; "60"; "70"; "80"] 1 medium "Gaming" "fallback";
  Q "Which game popularized the battle royale genre?"
    ["PUBG"; "Fortnite"; "Apex Legends"; "H1Z1"] 0 medium "Gaming" "fallback";
  Q "What year was the original Legend of Zelda released?"
    ["1985"; "1986"; "1987"; "1988"] 1 medium "Gaming" "fallback"
].

Definition generateAdditionalScienceQuestions : list Question := [
  Q "What is the atomic number of carbon?"
    ["4"; "6"; "8"; "12"] 1 medium "Science" "fallback";
  Q "Which scientist developed the theory of evolution?"
    ["Isaac Newton"; "Albert Einstein"; "Charles Darwin"; "Galileo Galilei"] 2 medium "Science" "fallback";
  Q "What is the pH of pure water?"
    ["6"; "7"; "8"; "9"] 1 medium "Science" "fallback";
  Q "How many chromosomes do humans have?"
    ["44"; "46"; "48"; "50"] 1 medium "Science" "fallback";
  Q "What is the most abundant gas in the universe?"
    ["Oxygen"; "Nitrogen"; "Hydrogen"; "Helium"] 2 medium "Science" "fallback"
].

Definition generateAdditionalTechnologyQuestions : list Question := [
  Q "What does 'API' stand for?"
    ["Application Programming Interface"; "Advanced Programming Interface"; "Automated Programming Interface"; "Application Process Interface"] 0 medium "Technology" "fallback";
  Q "Which company created the Git version control system?"
    ["Microsoft"; "Google"; "Linus Torvalds"; "GitHub"] 2 medium "Technology" "fallback";
  Q "What does 'SQL' stand for?"
    ["Structured Query Language"; "Simple Query Language"; "Standard Query Language"; "System Query Language"] 0 medium "Technology" "fallback";
  Q "What is the time complexity of binary search?"
    ["O(n)"; "O(log n)"; "O(n²)"; "O(1)"] 1 hard "Technology" "fallback";
  Q "Which design pattern ensures a class has only one instance?"
    ["Factory"; "Observer"; "Singleton"; "Strategy"] 2 hard "Technology" "fallback"
].

Definition getMoviesQuestions : list Question := [
  Q "Who directed the movie 'Jaws'?"
    ["George Lucas"; "Steven Spielberg"; "Martin Scorsese"; "Francis Ford Coppola"] 1 easy "Movies" "fallback";
  Q "Which movie won the Academy Award for Best Picture in 2020?"
    ["1917"; "Joker"; "Parasite"; "Once Upon a Time in Hollywood"] 2 easy "Movies" "fallback";
  Q "What is the highest-grossing film of all time?"
    ["Avatar"; "Avengers: Endgame"; "Titanic"; "Star Wars: The Force Awakens"] 1 easy "Movies" "fallback";
  Q "Who played the character of Jack Sparrow in Pirates of the Caribbean?"
    ["Orlando Bloom"; "Johnny Depp"; "Geoffrey Rush"; "Keira Knightley"] 1 easy "Movies" "fallback";
  Q "Which animated movie features the song 'Let It Go'?"
    ["Moana"; "Tangled"; "Frozen"; "The Little Mermaid"] 2 easy "Movies" "fallback"
].

Definition getAskRedditQuestions : list Question := [
  Q "What is the most common question type on r/AskReddit?"
    ["Personal experiences"; "Hypothetical scenarios"; "Advice requests"; "All of the above"] 3 easy "Reddit Culture" "fallback";
  Q "What does 'TL;DR' mean on Reddit?"
    ["Too Long; Didn't Read"; "Too Late; Don't Reply"; "Top Level; Direct Response"; "Time Limit; Delete Reply"] 0 easy "Reddit Culture" "fallback";
  Q "What is Reddit Gold?"
    ["A premium membership"; "A type of award"; "Virtual currency"; "All of the above"] 3 easy "Reddit Culture" "fallback";
  Q "What does 'AMA' stand for?"
    ["Ask Me Anything"; "Always Make Answers"; "All My Answers"; "Ask More Again"] 0 easy "Reddit Culture" "fallback";
  Q "What is the Reddit mascot called?"
    ["Snoo"; "Reddy"; "Alien"; "Bob"] 0 easy "Reddit Culture" "fallback"
].

Definition getWorldNewsQuestions : list Question := [
  Q "What is the capital of Australia?"
    ["Sydney"; "Melbourne"; "Canberra"; "Perth"] 2 easy "Geography" "fallback";
  Q "Which country has the largest population?"
    ["India"; "China"; "United States"; "Indonesia"] 1 easy "Geography" "fallback";
  Q "What is the smallest country in the world?"
    ["Monaco"; "Vatican City"; "San Marino"; "Liechtenstein"] 1 easy "Geography" "fallback";
  Q "Which continent is known as the 'Dark Continent'?"
    ["Asia"; "South America"; "Africa"; "Australia"] 2 easy "Geography" "fallback";
  Q "What is the longest river in the world?"
    ["Amazon River"; "Nile River"; "Mississippi River"; "Yangtze River"] 1 easy "Geography" "fallback"
].

Definition getGeneralRedditQuestions : list Question := [
  Q "What does 'OP' stand for on Reddit?"
    ["Original Poster"; "Online Person"; "Open Post"; "Other People"] 0 easy "Reddit" "fallback";
  Q "What is the purpose of upvoting on Reddit?"
    ["To like a post"; "To show agreement"; "To increase visibility"; "All of the above"] 3 easy "Reddit" "fallback";
  Q "What is a subreddit?"
    ["A user profile"; "A topic-specific community"; "A type of post"; "A Reddit feature"] 1 easy "Reddit" "fallback";
  Q "What does 'karma' represent on Reddit?"
    ["Points from upvotes/downvotes"; "Time spent on Reddit"; "Number of posts"; "Account age"] 0 easy "Reddit" "fallback";
  Q "What is Reddit's slogan?"
    ["The Front Page of the Internet"; "Where Communities Thrive"; "Social News Aggregation"; "The Voice of the Internet"] 0 easy "Reddit" "fallback"
].

Definition getProgrammingQuestions : list Question := [
  Q "Which programming language is known as the 'language of the web'?"
    ["Python"; "JavaScript"; "Java"; "C++"] 1 easy "Programming" "fallback";
  Q "What does 'HTML' stand for?"
    ["HyperText Markup Language"; "High Tech Modern Language"; "Home Tool Markup Language"; "Hyperlink and Text Markup Language"] 0 easy "Programming" "fallback";
  Q "Which symbol is used for comments in Python?"
    ["//"; "/*"; "#"; "<!--"] 2 easy "Programming" "fallback";
  Q "What is Git primarily used for?"
    ["Database management"; "Version control"; "Web hosting"; "Code compilation"] 1 easy "Programming" "fallback";
  Q "Which company developed the Java programming language?"
    ["Microsoft"; "Apple"; "Sun Microsystems"; "Google"] 2 easy "Programming" "fallback"
].

Definition getHistoryQuestions : list Question := [
  Q "In which year did World War II end?"
    ["1944"; "1945"; "1946"; "1947"] 1 easy "History" "fallback";
  Q "Who was the first person to walk on the moon?"
    ["Buzz Aldrin"; "Neil Armstrong"; "John Glenn"; "Alan Shepard"] 1 easy "History" "fallback";
  Q "Which ancient wonder of the world was located in Alexandria?"
    ["Hanging Gardens"; "Lighthouse of Alexandria"; "Colossus of Rhodes"; "Temple of Artemis"] 1 easy "History" "fallback";
  Q "Who painted the Mona Lisa?"
    ["Vincent van Gogh"; "Pablo Picasso"; "Leonardo da Vinci"; "Michelangelo"] 2 easy "History" "fallback";
  Q "Which empire was ruled by Julius Caesar?"
    ["Greek Empire"; "Roman Empire"; "Byzantine Empire"; "Persian Empire"] 1 easy "History" "fallback"
].

Definition getSportsQuestions : list Question := [
  Q "How many players are on a basketball team on the court at one time?"
    ["4"; "5"; "6"; "7"] 1 easy "Sports" "fallback";
  Q "Which sport is known as 'America's Pastime'?"
    ["Football"; "Basketball"; "Baseball"; "Hockey"] 2 easy "Sports" "fallback";
  Q "How often are the Summer Olympic Games held?"
    ["Every 2 years"; "Every 3 years"; "Every 4 years"; "Every 5 years"] 2 easy "Sports" "fallback";
  Q "In which sport would you perform a slam dunk?"
    ["Volleyball"; "Basketball"; "Tennis"; "Badminton"] 1 easy "Sports" "fallback";
  Q "What is the maximum score possible in ten-pin bowling?"
    ["200"; "250"; "300"; "350"] 2 easy "Sports" "fallback"
].

Definition generateDynamicGamingQuestions : list Question := [
  Q "Which game series features the character Lara Croft?"
    ["Uncharted"; "Tomb Raider"; "Assassin's Creed"; "Far Cry"] 1 easy "Gaming" "dynamic";
  Q "What is the name of the main character in the Witcher series?"
    ["Geralt of Rivia"; "Triss Merigold"; "Yennefer"; "Dandelion"] 0 medium "Gaming" "dynamic";
  Q "Which game popularized the 'souls-like' genre?"
    ["Dark Souls"; "Demon's Souls"; "Bloodborne"; "Sekiro"] 1 hard "Gaming" "dynamic";
  Q "What does 'FPS' stand for in gaming?"
    ["First Person Shooter"; "Frames Per Second"; "Both A and B"; "Fast Paced Strategy"] 2 medium "Gaming" "dynamic";
  Q "Which company developed Minecraft?"
    ["Microsoft"; "Mojang"; "Notch"; "Both B and C"] 3 medium "Gaming" "dynamic";
  Q "What is the maximum level in Pokemon Red/Blue?"
    ["99"; "100"; "255"; "No limit"] 1 medium "Gaming" "dynamic";
  Q "Which game engine powers Genshin Impact?"
    ["Unity"; "Unreal Engine"; "Custom Engine"; "CryEngine"] 0 hard "Gaming" "dynamic";
  Q "What year was Steam launched?"
    ["2002"; "2003"; "2004"; "2005"] 1 hard "Gaming" "dynamic"
].

Definition generateDynamicScienceQuestions : list Question := [
  Q "What is the powerhouse of the cell?"
    ["Nucleus"; "Mitochondria"; "Ribosome"; "Endoplasmic Reticulum"] 1 easy "Science" "dynamic";
  Q "What is the study of earthquakes called?"
    ["Geology"; "Seismology"; "Meteorology"; "Oceanography"] 1 medium "Science" "dynamic";
  Q "What is the Higgs boson also known as?"
    ["God particle"; "Dark matter"; "Antimatter"; "Quantum particle"] 0 hard "Science" "dynamic";
  Q "What is the chemical symbol for gold?"
    ["Go"; "Gd"; "Au"; "Ag"] 2 medium "Science" "dynamic";
  Q "How many bones are in an adult human body?"
    ["206"; "208"; "210"; "212"] 0 medium "Science" "dynamic";
  Q "What is the speed of light in a vacuum?"
    ["299,792,458 m/s"; "300,000,000 m/s"; "299,000,000 m/s"; "301,000,000 m/s"] 0 hard "Science" "dynamic"
].

Definition generateDynamicTechnologyQuestions : list Question := [
  Q "What does 'IoT' stand for?"
    ["Internet of Things"; "Input Output Technology"; "Integrated Online Technology"; "Interactive Object Technology"] 0 easy "Technology" "dynamic";
  Q "Which company developed the React JavaScript library?"
    ["Google"; "Facebook"; "Microsoft"; "Twitter"] 1 medium "Technology" "dynamic";
  Q "What is the maximum theoretical speed of USB 3.0?"
    ["480 Mbps"; "5 Gbps"; "10 Gbps"; "20 Gbps"] 1 hard "Technology" "dynamic";
  Q "What does 'AI' stand for?"
    ["Artificial Intelligence"; "Automated Intelligence"; "Advanced Intelligence"; "Algorithmic Intelligence"] 0 easy "Technology" "dynamic";
  Q "Which programming language is known for its use in machine learning?"
    ["JavaScript"; "Python"; "C++"; "Java"] 1 medium "Technology" "dynamic";
  Q "What does 'VPN' stand for?"
    ["Virtual Private Network"; "Very Private Network"; "Verified Private Network"; "Variable Private Network"] 0 easy "Technology" "dynamic"
].

Definition generateDynamicMoviesQuestions : list Question := [
  Q "Which movie features the line 'May the Force be with you'?"
    ["Star Trek"; "Star Wars"; "Guardians of the Galaxy"; "Interstellar"] 1 easy "Movies" "dynamic";
  Q "Who directed the movie 'Inception'?"
    ["Steven Spielberg"; "Christopher Nolan"; "Martin Scorsese"; "Quentin Tarantino"] 1 medium "Movies" "dynamic";
  Q "Which movie won the Academy Award for Best Picture in 2019?"
    ["Green Book"; "Roma"; "Black Panther"; "A Star Is Born"] 0 hard "Movies" "dynamic";
  Q "What is the highest-grossing R-rated movie of all time?"
    ["Deadpool"; "Joker"; "The Matrix"; "John Wick"] 1 hard "Movies" "dynamic"
].

Definition generateDynamicRedditQuestions : list Question := [
  Q "What does 'ELI5' mean on Reddit?"
    ["Explain Like I'm 5"; "Everyone Loves Internet 5"; "Easy Learning In 5"; "Elaborate Like It's 5"] 0 easy "Reddit Culture" "dynamic";
  Q "What does 'FTFY' mean on Reddit?"
    ["Fixed That For You"; "For The First Year"; "From The Future You"; "Find The Final Year"] 0 medium "Reddit Culture" "dynamic";
  Q "What is Reddit Premium?"
    ["Ad-free browsing"; "Special features"; "Monthly coins"; "All of the above"] 3 easy "Reddit Culture" "dynamic"
].

Definition generateDynamicWorldNewsQuestions : list Question := [
  Q "Which country has the most time zones?"
    ["Russia"; "United States"; "China"; "France"] 0 medium "Geography" "dynamic";
  Q "What is the most spoken language in the world?"
    ["English"; "Mandarin Chinese"; "Spanish"; "Hindi"] 1 medium "Geography" "dynamic";
  Q "Which country is both in Europe and Asia?"
    ["Russia"; "Turkey"; "Kazakhstan"; "All of the above"] 3 medium "Geography" "dynamic"
].

Definition generateDynamicGeneralQuestions : list Question := [
  Q "What does 'TIL' mean on Reddit?"
    ["Today I Learned"; "This Is Life"; "Time Is Limited"; "Take It Literally"] 0 easy "Reddit" "dynamic";
  Q "What is the Reddit cake day?"
    ["Birthday"; "Account anniversary"; "Cake recipe day"; "Special event"] 1 easy "Reddit" "dynamic";
  Q "What does 'NSFW' stand for?"
    ["Not Safe For Work"; "Not Suitable For Watching"; "New Safe For Web"; "Never Safe For Workers"] 0 easy "Reddit" "dynamic"
].

Definition generateDynamicProgrammingQuestions : list Question := [
  Q "What does 'DRY' principle stand for in programming?"
    ["Don't Repeat Yourself"; "Do Repeat Yourself"; "Don't Run Yet"; "Data Retrieval Yearly"] 0 medium "Programming" "dynamic";
  Q "What is the time complexity of bubble sort?"
    ["O(n)"; "O(n log n)"; "O(n²)"; "O(log n)"] 2 hard "Programming" "dynamic";
  Q "Which of these is not a programming paradigm?"
    ["Object-oriented"; "Functional"; "Procedural"; "Circular"] 3 medium "Programming" "dynamic"
].

Definition generateDynamicHistoryQuestions : list Question := [
  Q "In which year did the Berlin Wall fall?"
    ["1987"; "1989"; "1991"; "1993"] 1 medium "History" "dynamic";
  Q "Who was the first President of the United States?"
    ["Thomas Jefferson"; "George Washington"; "John Adams"; "Benjamin Franklin"] 1 easy "History" "dynamic";
  Q "Which empire was known for building Machu Picchu?"
    ["Aztec"; "Maya"; "Inca"; "Olmec"] 2 medium "History" "dynamic"
].

Definition generateDynamicSportsQuestions : list Question := [
  Q "How many points is a touchdown worth in American football?"
    ["3"; "6"; "7"; "8"] 1 easy "Sports" "dynamic";
  Q "Which country has won the most FIFA World Cups?"
    ["Germany"; "Argentina"; "Brazil"; "Italy"] 2 medium "Sports" "dynamic";
  Q "How many players are on a volleyball team on the court?"
    ["5"; "6"; "7"; "8"] 1 easy "Sports" "dynamic"
].

(** [initializeQuestionBank] *)
Definition initializeQuestionBank : gmap string (list Question) :=
  <["sports" := getSportsQuestions ++ generateDynamicSportsQuestions]>
  (<["history" := getHistoryQuestions ++ generateDynamicHistoryQuestions]>
  (<["programming" := getProgrammingQuestions ++ generateDynamicProgrammingQuestions]>
  (<["general" := getGeneralRedditQuestions ++ generateDynamicGeneralQuestions]>
  (<["worldnews" := getWorldNewsQuestions ++ generateDynamicWorldNewsQuestions]>
  (<["askreddit" := getAskRedditQuestions ++ generateDynamicRedditQuestions]>
  (<["movies" := getMoviesQuestions ++ generateDynamicMoviesQuestions]>
  (<["technology" := COMPREHENSIVE_QUESTIONS_technology
       ++ generateAdditionalTechnologyQuestions ++ generateDynamicTechnologyQuestions]>
  (<["science" := COMPREHENSIVE_QUESTIONS_science
       ++ generateAdditionalScienceQuestions ++ generateDynamicScienceQuestions]>
  (<["gaming" := COMPREHENSIVE_QUESTIONS_gaming
       ++ generateAdditionalGamingQuestions ++ generateDynamicGamingQuestions]> ∅))))))))).

(** The database the constructor builds. *)
Definition newQuestionDatabase : QuestionDatabase :=
  mkQuestionDatabase initializeQuestionBank ∅.

(** The first lines of [getRandomQuestions], which choose the candidates of
    a realm: the realm's own questions, else the general ones, else the
    basic fallback. *)
Definition realmCandidates (db : QuestionDatabase) (realm : string) : list Question :=
  let normalizedRealm := normalizeRealmName realm in
  let realmQuestions :=
    match questionBank db !! normalizedRealm with
    | Some (q :: qs) => q :: qs
    | _ => default [] (questionBank db !! "general")
    end in
  match realmQuestions with
  | [] => getBasicFallbackQuestions
  | _ => realmQuestions
  end.

(** [sessionId ? this.hashCode(sessionId) : Date.now()]; an empty session
    identifier is falsy. *)
Definition sessionSeed (sessionId : option string) (now : Z) : Z :=
  match sessionId with
  | Some s => if bool_decide (s = "") then now else hashCode s
  | None => now
  end.

Section Engine.

(** [seededRandom(seed)]: the values the closure [x = Math.sin(x) * 10000;
    return x - Math.floor(x)] returns, call after call, as draws from
    [0, 1). [Math.sin] is a floating-point function, so the generator is a
    parameter here. *)
Variable seededRandom : Z → Tape.

(** [advancedShuffle(array, sessionId)]; [now] is [Date.now()] and [random]
    is [Math.random]. *)
Definition advancedShuffle {T} (array : list T) (sessionId : option string)
    (now : Z) (random : Tape) : list T * Tape :=
  let seed := sessionSeed sessionId now in
  let '(shuffled, _) := fisherYates (length array - 1) (seededRandom seed) array in
  randomPass (length shuffled) 0 random shuffled.

(** [getRandomQuestions(realm, count, sessionId)]: the questions returned,
    the database afterwards and the rest of the [Math.random] tape. *)
Definition getRandomQuestions (db : QuestionDatabase) (realm : string) (count : Z)
    (sessionId : option string) (now : Z) (random : Tape)
    : list Question * QuestionDatabase * Tape :=
  let realmQuestions := realmCandidates db realm in
  let '(questions, used, random) :=
    getBalancedQuestionMix (spread realmQuestions) count (recentlyUsedQuestions db) random in
  let '(questionsWithShuffledOptions, random) :=
    shuffleQuestionOptions questions.*2 random in
  let '(result, random) := advancedShuffle questionsWithShuffledOptions sessionId now random in
  (result, mkQuestionDatabase (questionBank db) used, random).

End Engine.

(** ** Notions the properties are stated with *)

(** The cooldown key of a realm: [getCurrentRealm] of its candidates. *)
Definition cooldownKey (db : QuestionDatabase) (realm : string) : string :=
  getCurrentRealm (spread (realmCandidates db realm)).

(** The candidates [getBalancedQuestionMix] selects from: the result of
    [filterRecentlyUsedQuestions] on the realm's candidates. *)
Definition availablePool (db : QuestionDatabase) (realm : string) : list Obj :=
  (filterRecentlyUsedQuestions (spread (realmCandidates db realm))
     (cooldownKey db realm) (recentlyUsedQuestions db)).1.

(** The candidates of a realm that are not in its cooldown set. *)
Definition freshCandidates (db : QuestionDatabase) (realm : string) : list Obj :=
  filter (λ q, getQuestionId q.2 ∉ default [] (recentlyUsedQuestions db !! cooldownKey db realm))
    (spread (realmCandidates db realm)).

(** The questions of a batch as [getBalancedQuestionMix] returns them, before
    their options are shuffled and the batch is reordered. *)
Definition selectedBatch (db : QuestionDatabase) (realm : string) (count : Z)
    (random : Tape) : list Obj :=
  (getBalancedQuestionMix (spread (realmCandidates db realm)) count
     (recentlyUsedQuestions db) random).1.1.

(** The number of hard questions among the tier-targeted picks. *)
Definition hardPicked (availableQuestions : list Obj) (count : Z) (random : Tape) : nat :=
  length (filter (has_difficulty hard) (tierPicks availableQuestions count random).1).

(** Relocation of the correct index by position, as the specification asks
    for it: every option is tagged with its original index, the tagged
    array goes through the same shuffle, and the new correct index is the
    place where the tag of the originally correct option ends up. *)
Fixpoint position_from (tags : list nat) (tag : nat) (i : Z) : Z :=
  match tags with
  | [] => -1
  | t :: tags' => if bool_decide (t = tag) then i else position_from tags' tag (i + 1)
  end.

Definition trackedCorrectIndex (q : Question) (random : Tape) : Z :=
  let tagged := zip (seq 0 (length (options q))) (options q) in
  let '(shuffled, _) := shuffleArray tagged random in
  if (correct q <? 0) || (Z.of_nat (length (options q)) <=? correct q) then -1
  else position_from shuffled.*1 (Z.to_nat (correct q)) 0.

(** The contents of a served set after [recordServed] as the specification
    words it: kept whole up to [cooldownPeriod * batchSize] entries, cut to the
    [cooldownPeriod * 3 * batchSize] most recently added ones beyond. *)
Definition recordServed_spec (inserted : list string) : list string :=
  let batchSize := 6 in
  if questionCooldownPeriod * batchSize <? Z.of_nat (length inserted)
  then slice_from inserted (- (questionCooldownPeriod * 3 * batchSize))
  else inserted.

(** The databases the public operations can produce, from any question bank
    with no question served yet. *)
Inductive reachable (seededRandom : Z → Tape) : QuestionDatabase → Prop :=
  | reachable_new bank :
      reachable seededRandom (mkQuestionDatabase bank ∅)
  | reachable_getRandomQuestions db realm count sessionId now random :
      reachable seededRandom db →
      reachable seededRandom
        (getRandomQuestions seededRandom db realm count sessionId now random).1.2
  | reachable_clearRecentlyUsedQuestions db realm :
      reachable seededRandom db →
      reachable seededRandom (clearRecentlyUsedQuestions db realm).

(** Sample inputs. *)
Definition zeroTape : Tape := λ _, O.

Definition constantSeeded : Z → Tape := λ _ _, O.

(** The draws under which a Fisher-Yates pass over four elements swaps
    every position with itself. *)
Definition identityTape : Tape := λ k, (3 - k)%nat.

Definition twinOptions : Question :=
  mkQuestion "Which option is right?" ["A"; "A"; "B"; "C"] 1 easy "Test" None None.

(** The database after a first batch of two questions for r/worldnews. *)
Definition afterWorldnews : QuestionDatabase :=
  (getRandomQuestions constantSeeded newQuestionDatabase "worldnews" 2 None 0 zeroTape).1.2.

(** The first question of a batch of six for r/gaming. *)
Definition sampleServed : Question :=
  default twinOptions
    (head (getRandomQuestions constantSeeded newQuestionDatabase "gaming" 6 None 0 zeroTape).1.1).

Definition numberedQuestion (n : nat) : Obj :=
  (n, Q ("Question " +:+ string_of_Z (Z.of_nat n)) ["a"; "b"; "c"; "d"] 0 easy "Test" "sample").

(** ** The monitoring reads of the class *)

(** [getQuestionCount(realm)]:
    [this.questionBank.get(normalizedRealm)?.length || 0]. *)
Definition getQuestionCount (db : QuestionDatabase) (realm : string) : nat :=
  match questionBank db !! normalizeRealmName realm with
  | Some questions => length questions
  | None => O
  end.

(** The values and the keys of the bank as [Map.prototype.values] and
    [keys] enumerate them. The map type keeps no insertion order, so the
    enumeration is the map's own; the sums and the membership below do not
    depend on it. *)
Definition bankValues (db : QuestionDatabase) : list (list Question) :=
  (map_to_list (questionBank db)).*2.

(** [getAvailableRealms()]: [Array.from(this.questionBank.keys())]. *)
Definition getAvailableRealms (db : QuestionDatabase) : list string :=
  (map_to_list (questionBank db)).*1.

(** [getTotalQuestionCount()]:
    [values.reduce((total, questions) => total + questions.length, 0)]. *)
Definition getTotalQuestionCount (db : QuestionDatabase) : nat :=
  foldl (λ total questions, (total + length questions)%nat) O (bankValues db).

(** One entry of [getQuestionStats()]. *)
Record RealmStats := mkRealmStats {
  total : nat;
  easyCount : nat;
  mediumCount : nat;
  hardCount : nat
}.

Definition countDifficulty (d : Difficulty) (questions : list Question) : nat :=
  length (filter (λ q, difficulty q = d) questions).

(** [getQuestionStats()]: one entry per realm of the bank. *)
Definition getQuestionStats (db : QuestionDatabase) : gmap string RealmStats :=
  (λ questions,
     {| total := length questions;
        easyCount := countDifficulty easy questions;
        mediumCount := countDifficulty medium questions;
        hardCount := countDifficulty hard questions |}) <$> questionBank db.

(** ** The callers in [src/server/index.ts] *)

(** The totals of the [/api/question-stats] response:
    [Object.values(stats).reduce((sum, realm) => sum + realm.total, 0)] and
    [Object.keys(stats).length]. *)
Definition statsTotalQuestions (db : QuestionDatabase) : nat :=
  foldl (λ sum realm, (sum + total realm)%nat) O (map_to_list (getQuestionStats db)).*2.

Definition statsTotalRealms (db : QuestionDatabase) : nat :=
  length (map_to_list (getQuestionStats db)).*1.

Section Handler.

Variable seededRandom : Z → Tape.

(** [Math.random().toString(36).substr(2, 9)] for a draw: the digits of a
    floating-point number, kept as a parameter. *)
Variable randomSuffix : nat → string.

(** [`${Date.now()}-${Math.random().toString(36).substr(2, 9)}`] *)
Definition newSessionId (now : Z) (random : Tape) : string * Tape :=
  (string_of_Z now +:+ "-" +:+ randomSuffix (random O), next random).

(** The part of the [/api/init] handler that builds the question list.
    [generated] is the outcome of [aiGenerator.generateQuestionsForRealm]:
    the questions it resolved to, or [None] when it threw; [now1] and [now2]
    are the two readings of [Date.now()]. *)
Definition initQuestions (generated : option (list Question)) (db : QuestionDatabase)
    (realm : string) (now1 now2 : Z) (random : Tape)
    : list Question * QuestionDatabase * Tape :=
  let '(questions, db, random) :=
    match generated with
    | Some questions => (questions, db, random)
    | None =>
        let '(sessionId, random) := newSessionId now1 random in
        getRandomQuestions seededRandom db realm 50 (Some sessionId) now1 random
    end in
  if Z.of_nat (length questions) <? 6
  then
    let '(sessionId, random) := newSessionId now2 random in
    let '(additionalQuestions, db, random) :=
      getRandomQuestions seededRandom db "general" (6 - Z.of_nat (length questions))
        (Some sessionId) now2 random in
    (questions ++ additionalQuestions, db, random)
  else (questions, db, random).

End Handler.

(** ** More notions the properties are stated with *)

(** All the questions [getBalancedQuestionMix] selects and records, before
    the cut to [count]. *)
Definition selectedAll (db : QuestionDatabase) (realm : string) (count : Z)
    (random : Tape) : list Obj :=
  (selectQuestions (availablePool db realm) count random).1.

(** The served set a request for [realm] consults. *)
Definition servedSet (db : QuestionDatabase) (realm : string) : list string :=
  default [] (recentlyUsedQuestions db !! cooldownKey db realm).

(** The polynomial a string stands for in base 31, starting from [hash]. *)
Fixpoint polynomial31 (s : string) (hash : Z) : Z :=
  match s with
  | EmptyString => hash
  | String c s' => polynomial31 s' (hash * 31 + Z.of_nat (nat_of_ascii c))
  end.

(** The number of questions of a tier in a list of question objects. *)
Definition tierSize (d : Difficulty) (questions : list Obj) : nat :=
  length (filter (has_difficulty d) questions).

(** What the corpus literals are checked for: pairwise different option
    texts and a correct index inside the options. *)
Definition wellFormed (q : Question) : bool :=
  bool_decide (NoDup (options q))
  && (0 <=? correct q) && (correct q <? Z.of_nat (length (options q))).

(** A question with four different options and a valid correct index. *)
Definition plainOptions : Question :=
  mkQuestion "Which letter comes third?" ["A"; "B"; "C"; "D"] 2 easy "Test" None None.

(** A question whose correct index points outside its four options. *)
Definition strayIndex : Question :=
  mkQuestion "Which index is right?" ["A"; "B"; "C"; "D"] 4 easy "Test" None None.

(** The database after a first batch of six for r/gaming, and the first
    selected question of that batch and of the next one. *)
Definition afterGaming : QuestionDatabase :=
  (getRandomQuestions constantSeeded newQuestionDatabase "gaming" 6 None 0 zeroTape).1.2.

Definition firstSelected (db : QuestionDatabase) (realm : string) (count : Z) : Obj :=
  default (O, twinOptions) (head (selectedBatch db realm count zeroTape)).

(** A tape that starts with the draw [u]. *)
Definition consTape (u : nat) (t : Tape) : Tape :=
  λ k, match k with O => u | S k' => t k' end.

(** * Properties *)

Lemma floorMul_lt u n : (0 < n)%nat → (floorMul u n < n)%nat.
Proof. intros Hn. unfold floorMul. apply Nat.mod_upper_bound. lia. Qed.

(** Every index below [n] is the outcome of some draw. *)
Lemma floorMul_onto j n : (j < n)%nat → ∃ u, floorMul u n = j.
Proof. intros Hj. exists j. unfold floorMul. by apply Nat.mod_small. Qed.

(** Inside the array [swap] is the exchange of the two elements. *)
Lemma swap_in_range {T} (a : list T) i j :
  (i < length a)%nat → (j < length a)%nat →
  ∃ x y, a !! i = Some x ∧ a !! j = Some y ∧ swap a i j = <[j := x]> (<[i := y]> a).
Proof.
  intros [x Hx]%lookup_lt_is_Some [y Hy]%lookup_lt_is_Some.
  exists x, y. unfold swap. by rewrite Hx, Hy.
Qed.

Lemma swap_length {T} (a : list T) i j : length (swap a i j) = length a.
Proof.
  unfold swap. destruct (a !! i), (a !! j); try done.
  by rewrite !length_insert.
Qed.

Lemma swap_perm {T} (a : list T) i j : swap a i j ≡ₚ a.
Proof.
  unfold swap.
  destruct (a !! i) as [x|] eqn:Hi; [|done].
  destruct (a !! j) as [y|] eqn:Hj; [|done].
  destruct (decide (i = j)) as [->|Hne].
  - rewrite list_insert_insert_eq. simplify_eq. by rewrite list_insert_id.
  - apply Permutation_inj. split; [by rewrite !length_insert|].
    exists (λ k, if decide (k = i) then j else if decide (k = j) then i else k).
    split.
    + intros k1 k2 Hk. repeat case_decide; congruence.
    + intros k. repeat case_decide; subst.
      * rewrite Hj. rewrite list_lookup_insert_ne by done.
        rewrite list_lookup_insert_eq; [done|]. by eapply lookup_lt_Some.
      * rewrite Hi. rewrite list_lookup_insert_eq; [done|].
        rewrite length_insert. by eapply lookup_lt_Some.
      * by rewrite !list_lookup_insert_ne by done.
Qed.

(** ** Shuffles are permutations *)

Lemma fisherYates_perm {T} i random (a : list T) : (fisherYates i random a).1 ≡ₚ a.
Proof.
  revert random a. induction i as [|i IH]; intros random a; simpl; [done|].
  rewrite IH. apply swap_perm.
Qed.

Lemma shuffleArray_perm {T} (a : list T) random : (shuffleArray a random).1 ≡ₚ a.
Proof. apply fisherYates_perm. Qed.

Lemma shuffleArray_length {T} (a : list T) random :
  length (shuffleArray a random).1 = length a.
Proof. by rewrite shuffleArray_perm. Qed.

Lemma randomPass_perm {T} todo i random (a : list T) :
  (randomPass todo i random a).1 ≡ₚ a.
Proof.
  revert i random a. induction todo as [|todo IH]; intros i random a; simpl; [done|].
  rewrite IH. apply swap_perm.
Qed.

(** Every index the two loops swap lies inside the array. *)
Lemma fisherYates_index_in_range u i : (floorMul u (S i + 1) ≤ S i)%nat.
Proof. pose proof (floorMul_lt u (S i + 1)). lia. Qed.

Lemma advancedShuffle_passes {T} (seededRandom : Z → Tape) (array : list T)
    (sessionId : option string) (now : Z) (random : Tape) :
  let seeded :=
    (fisherYates (length array - 1) (seededRandom (sessionSeed sessionId now)) array).1 in
  advancedShuffle seededRandom array sessionId now random
  = randomPass (length seeded) 0 random seeded.
Proof. unfold advancedShuffle. by destruct (fisherYates _ _ array). Qed.

(** ** Option shuffling *)

Lemma indexOf_from_found (a : list string) (x : string) (i : Z) :
  x ∈ a →
  ∃ n : nat, indexOf_from a x i = i + Z.of_nat n ∧ a !! n = Some x
             ∧ ∀ m : nat, (m < n)%nat → a !! m ≠ Some x.
Proof.
  revert i. induction a as [|y a IH]; intros i Hin; [by apply elem_of_nil in Hin|].
  simpl. case_bool_decide as Hy.
  - subst y. exists O. split; [lia|]. split; [done|]. intros m Hm. lia.
  - apply elem_of_cons in Hin as [->|Hin]; [done|].
    destruct (IH (i + 1) Hin) as (n & Hn & Hlook & Hmin).
    exists (S n). split; [lia|]. split; [done|].
    intros [|m] Hm; simpl; [congruence|]. apply Hmin. lia.
Qed.

Lemma at_index_indexOf (a : list string) (x : string) :
  x ∈ a → at_index a (indexOf a (Some x)) = Some x
           ∧ 0 ≤ indexOf a (Some x) < Z.of_nat (length a).
Proof.
  intros Hin. destruct (indexOf_from_found a x 0 Hin) as (n & Hn & Hlook & _).
  simpl. rewrite Hn. unfold at_index.
  apply lookup_lt_Some in Hlook as Hlt.
  replace (0 + Z.of_nat n <? 0) with false by lia.
  replace (Z.to_nat (0 + Z.of_nat n)) with n by lia.
  split; [done|lia].
Qed.

Lemma at_index_elem_of {T} (a : list T) (i : Z) (x : T) :
  at_index a i = Some x → x ∈ a.
Proof.
  unfold at_index. destruct (i <? 0); [done|]. intros H.
  by eapply list_elem_of_lookup_2.
Qed.

Lemma at_index_valid {T} (a : list T) (i : Z) :
  0 ≤ i < Z.of_nat (length a) → is_Some (at_index a i).
Proof.
  intros Hi. unfold at_index. replace (i <? 0) with false by lia.
  apply lookup_lt_is_Some. lia.
Qed.

(** What [shuffleQuestionOptions] does to one question. *)
Lemma shuffleOptions_preserves (q : Question) (random : Tape) :
  let q' := (shuffleOptions q random).1 in
  question q' = question q
  ∧ options q' ≡ₚ options q
  ∧ (0 ≤ correct q < Z.of_nat (length (options q)) →
     0 ≤ correct q' < Z.of_nat (length (options q'))
     ∧ at_index (options q') (correct q') = at_index (options q) (correct q)).
Proof.
  unfold shuffleOptions.
  destruct (shuffleArray (options q) random) as [shuffledOptions rest] eqn:Hsh.
  assert (Hperm : shuffledOptions ≡ₚ options q).
  { change shuffledOptions with (shuffledOptions, rest).1. rewrite <- Hsh.
    apply shuffleArray_perm. }
  simpl. split; [done|]. split; [done|]. intros Hvalid.
  destruct (at_index_valid (options q) (correct q) Hvalid) as [x Hx].
  rewrite Hx. apply at_index_elem_of in Hx as Hin. rewrite <- Hperm in Hin.
  destruct (at_index_indexOf shuffledOptions x Hin) as [Hat Hrange]. done.
Qed.

Lemma shuffleQuestionOptions_elem (questions : list Question) (random : Tape) q' :
  q' ∈ (shuffleQuestionOptions questions random).1 →
  ∃ q r, q ∈ questions ∧ q' = (shuffleOptions q r).1.
Proof.
  revert random. induction questions as [|q rest IH]; intros random; simpl.
  - intros H. by apply elem_of_nil in H.
  - destruct (shuffleOptions q random) as [q1 r1] eqn:H1.
    destruct (shuffleQuestionOptions rest r1) as [rest' r2] eqn:H2. simpl.
    intros [->|Hin]%elem_of_cons.
    + exists q, random. split; [left|]. by rewrite H1.
    + destruct (IH r1) as (q0 & r & Hq0 & Heq); [by rewrite H2|].
      exists q0, r. split; [by right|done].
Qed.

Lemma shuffleQuestionOptions_length (questions : list Question) (random : Tape) :
  length (shuffleQuestionOptions questions random).1 = length questions.
Proof.
  revert random. induction questions as [|q rest IH]; intros random; simpl; [done|].
  destruct (shuffleOptions q random) as [q1 r1].
  specialize (IH r1). destruct (shuffleQuestionOptions rest r1) as [rest' r2].
  simpl in *. by rewrite IH.
Qed.

(** ** Slices *)

Lemma slice_sublist {T} (a : list T) (start end_ : Z) : slice a start end_ `sublist_of` a.
Proof.
  unfold slice. etrans; [apply sublist_take|apply sublist_drop].
Qed.

Lemma slice_0_length {T} (a : list T) (end_ : Z) :
  0 ≤ end_ → length (slice a 0 end_) = Z.to_nat (Z.min end_ (Z.of_nat (length a))).
Proof.
  intros Hend. unfold slice. replace (0 <? 0) with false by lia.
  replace (end_ <? 0) with false by lia.
  rewrite length_take, length_drop. lia.
Qed.

Lemma slice_from_last {T} (a : list T) (n : Z) :
  0 < n ≤ Z.of_nat (length a) →
  slice_from a (- n) = drop (length a - Z.to_nat n) a
  ∧ length (slice_from a (- n)) = Z.to_nat n.
Proof.
  intros Hn. unfold slice_from, slice.
  replace (- n <? 0) with true by lia.
  replace (Z.of_nat (length a) <? 0) with false by lia.
  replace (Z.to_nat (Z.max (Z.of_nat (length a) + - n) 0))
    with (length a - Z.to_nat n)%nat by lia.
  rewrite take_ge; [|rewrite length_drop; lia].
  split; [done|]. rewrite length_drop. lia.
Qed.

(** ** The corpus array of a realm *)

Lemma spread_fst (qs : list Question) : (spread qs).*1 = seq 0 (length qs).
Proof. unfold spread. apply fst_zip. by rewrite length_seq. Qed.

Lemma spread_snd (qs : list Question) : (spread qs).*2 = qs.
Proof. unfold spread. apply snd_zip. by rewrite length_seq. Qed.

Lemma spread_NoDup (qs : list Question) : NoDup (spread qs).*1.
Proof. rewrite spread_fst. apply NoDup_seq. Qed.

Lemma spread_length (qs : list Question) : length (spread qs) = length qs.
Proof. rewrite <- (spread_snd qs) at 2. by rewrite length_fmap. Qed.

(** Two objects of one array with the same reference are the same object. *)
Lemma same_reference (l : list Obj) (x y : Obj) :
  NoDup l.*1 → x ∈ l → y ∈ l → x.1 = y.1 → x = y.
Proof.
  induction l as [|a l IH]; intros Hnd Hx Hy Heq; [by apply elem_of_nil in Hx|].
  rewrite fmap_cons in Hnd. apply NoDup_cons in Hnd as [Hnotin Hnd].
  apply elem_of_cons in Hx as [->|Hx]; apply elem_of_cons in Hy as [->|Hy].
  - done.
  - exfalso. apply Hnotin. rewrite Heq. by apply list_elem_of_fmap_2.
  - exfalso. apply Hnotin. rewrite <- Heq. by apply list_elem_of_fmap_2.
  - by apply IH.
Qed.

Lemma submseteq_NoDup {T} (l k : list T) : l ⊆+ k → NoDup k → NoDup l.
Proof.
  intros (l2 & Hsub & Hperm)%submseteq_sublist_l Hnd.
  rewrite <- Hperm in Hnd. by eapply sublist_NoDup.
Qed.

Lemma NoDup_references (l : list Obj) : NoDup l.*1 → NoDup l.
Proof. apply NoDup_fmap_1. Qed.

(** ** The balanced selection *)

Lemma tiers_partition (l : list Obj) :
  filter (has_difficulty easy) l ++ filter (has_difficulty medium) l
    ++ filter (has_difficulty hard) l ≡ₚ l.
Proof.
  induction l as [|[n q] l IH]; [done|].
  rewrite !filter_cons.
  repeat case_decide; unfold has_difficulty in *; simpl in *;
    try congruence; try (destruct (difficulty q); congruence).
  - by rewrite IH.
  - rewrite <- Permutation_middle. by rewrite IH.
  - rewrite app_assoc, <- Permutation_middle, <- app_assoc. by rewrite IH.
Qed.

Lemma pushTier_picks (tier : list Obj) (target : Z) (selected : list Obj) random :
  ∃ picks, (pushTier tier target selected random).1 = selected ++ picks
           ∧ picks ⊆+ tier.
Proof.
  unfold pushTier. destruct (0 <? Z.of_nat (length tier)).
  - destruct (shuffleArray tier random) as [shuffled rest] eqn:Hsh. simpl.
    eexists. split; [done|].
    etrans; [apply sublist_submseteq, slice_sublist|].
    apply Permutation_submseteq.
    change shuffled with (shuffled, rest).1. rewrite <- Hsh. apply shuffleArray_perm.
  - exists []. simpl. split; [by rewrite app_nil_r|]. apply submseteq_nil_l.
Qed.

Lemma tierPicks_submseteq (availableQuestions : list Obj) (count : Z) random :
  (tierPicks availableQuestions count random).1 ⊆+ availableQuestions.
Proof.
  unfold tierPicks.
  destruct (pushTier_picks (filter (has_difficulty easy) availableQuestions)
              (ceil_04 count) [] random) as (pe & He & Hpe).
  destruct (pushTier _ (ceil_04 count) [] random) as [s1 r1]. simpl in He. subst s1.
  destruct (pushTier_picks (filter (has_difficulty medium) availableQuestions)
              (ceil_04 count) pe r1) as (pm & Hm & Hpm).
  destruct (pushTier _ (ceil_04 count) pe r1) as [s2 r2]. simpl in Hm. subst s2.
  destruct (pushTier_picks (filter (has_difficulty hard) availableQuestions)
              (count - ceil_04 count - ceil_04 count) (pe ++ pm) r2) as (ph & Hh & Hph).
  rewrite Hh. etrans; [|apply Permutation_submseteq, tiers_partition].
  rewrite <- app_assoc. by repeat apply submseteq_app.
Qed.

Lemma fill_partition (availableQuestions selected : list Obj) :
  NoDup availableQuestions.*1 → selected ⊆+ availableQuestions →
  selected ++ filter (λ q, includes selected q = false) availableQuestions
    ≡ₚ availableQuestions.
Proof.
  intros Hnd Hsub.
  assert (Hnda : NoDup availableQuestions) by by apply NoDup_references.
  assert (Hin : ∀ x, x ∈ selected → x ∈ availableQuestions).
  { intros x Hx. by eapply elem_of_submseteq. }
  apply NoDup_Permutation; [|done|].
  - apply NoDup_app. split; [by eapply submseteq_NoDup|]. split.
    + intros x Hx [Hfalse _]%list_elem_of_filter.
      unfold includes in Hfalse. apply bool_decide_eq_false in Hfalse.
      apply Hfalse. by apply list_elem_of_fmap_2.
    + by apply NoDup_filter.
  - intros x. rewrite elem_of_app, list_elem_of_filter. split.
    + intros [Hx|[_ Hx]]; auto.
    + intros Hx. destruct (includes selected x) eqn:Hinc; [left|by right].
      unfold includes in Hinc. apply bool_decide_eq_true in Hinc.
      apply list_elem_of_fmap in Hinc as (y & Hy1 & Hy).
      assert (x = y) as ->; [|done].
      apply (same_reference availableQuestions); auto.
Qed.

Lemma fill_sub (availableQuestions selected : list Obj) (count : Z) random :
  NoDup availableQuestions.*1 → selected ⊆+ availableQuestions →
  (fill availableQuestions selected count random).1 ⊆+ availableQuestions.
Proof.
  intros Hnd Hsub. unfold fill.
  pose proof (fill_partition _ _ Hnd Hsub) as Hpart.
  destruct (Z.of_nat (length selected) <? count); [|done].
  destruct (shuffleArray _ random) as [remaining rest] eqn:Hsh. simpl.
  etrans; [|apply Permutation_submseteq, Hpart]. apply submseteq_app; [done|].
  etrans; [apply sublist_submseteq, slice_sublist|].
  apply Permutation_submseteq.
  change remaining with (remaining, rest).1. rewrite <- Hsh. apply shuffleArray_perm.
Qed.

Lemma fill_length (availableQuestions selected : list Obj) (count : Z) random :
  NoDup availableQuestions.*1 → selected ⊆+ availableQuestions → 0 ≤ count →
  length (slice (fill availableQuestions selected count random).1 0 count)
  = Z.to_nat (Z.min count (Z.of_nat (length availableQuestions))).
Proof.
  intros Hnd Hsub Hcount. unfold fill.
  pose proof (fill_partition _ _ Hnd Hsub) as Hpart.
  pose proof (submseteq_length _ _ Hsub) as Hlen.
  destruct (Z.of_nat (length selected) <? count) eqn:Hlt.
  - destruct (shuffleArray _ random) as [remaining rest] eqn:Hsh. simpl.
    assert (Hrem : remaining
              ≡ₚ filter (λ q, includes selected q = false) availableQuestions).
    { change remaining with (remaining, rest).1. rewrite <- Hsh.
      apply shuffleArray_perm. }
    apply Permutation_length in Hpart. rewrite length_app in Hpart.
    rewrite slice_0_length by done. rewrite length_app.
    rewrite slice_0_length by lia. rewrite Hrem. lia.
  - simpl. rewrite slice_0_length by done. lia.
Qed.

Lemma selectQuestions_sub (availableQuestions : list Obj) (count : Z) random :
  NoDup availableQuestions.*1 →
  (selectQuestions availableQuestions count random).1 ⊆+ availableQuestions.
Proof.
  intros Hnd. unfold selectQuestions.
  pose proof (tierPicks_submseteq availableQuestions count random) as Hsub.
  destruct (tierPicks availableQuestions count random) as [selected r].
  by apply fill_sub.
Qed.

Lemma selectQuestions_length (availableQuestions : list Obj) (count : Z) random :
  NoDup availableQuestions.*1 → 0 ≤ count →
  length (slice (selectQuestions availableQuestions count random).1 0 count)
  = Z.to_nat (Z.min count (Z.of_nat (length availableQuestions))).
Proof.
  intros Hnd Hcount. unfold selectQuestions.
  pose proof (tierPicks_submseteq availableQuestions count random) as Hsub.
  destruct (tierPicks availableQuestions count random) as [selected r].
  by apply fill_length.
Qed.

(** ** The cooldown filter *)

Lemma filterRecentlyUsedQuestions_sub (questions : list Obj) realm used :
  (filterRecentlyUsedQuestions questions realm used).1 ⊆+ questions.
Proof.
  unfold filterRecentlyUsedQuestions. case_match; simpl; [done|].
  apply sublist_submseteq, sublist_filter.
Qed.

Lemma availablePool_sub db realm :
  availablePool db realm ⊆+ spread (realmCandidates db realm).
Proof. apply filterRecentlyUsedQuestions_sub. Qed.

Lemma availablePool_NoDup db realm : NoDup (availablePool db realm).*1.
Proof.
  eapply submseteq_NoDup; [|apply (spread_NoDup (realmCandidates db realm))].
  apply fmap_submseteq, availablePool_sub.
Qed.

Lemma filterRecentlyUsedQuestions_cases (questions : list Obj) (realm : string)
    (used : gmap string (list string)) :
  let recentlyUsed := default [] (used !! realm) in
  let fresh := filter (λ q, getQuestionId q.2 ∉ recentlyUsed) questions in
  filterRecentlyUsedQuestions questions realm used
  = if decide (length fresh < 6)%nat
    then (questions, <[realm := []]> used)
    else (fresh, used).
Proof.
  intros recentlyUsed fresh. unfold filterRecentlyUsedQuestions.
  match goal with
  | |- context [Z.of_nat (length ?f) <? 6] => assert (Hfilter : f = fresh)
  end.
  { apply list_filter_iff. intros q. unfold set_has.
    by rewrite bool_decide_eq_false. }
  rewrite Hfilter. case_decide as Hlt.
  - replace (Z.of_nat (length fresh) <? 6) with true by lia. done.
  - replace (Z.of_nat (length fresh) <? 6) with false by lia. done.
Qed.

(** ** Recording the served questions *)

Lemma set_add_elem (s : list string) (x y : string) :
  y ∈ set_add s x ↔ y ∈ s ∨ y = x.
Proof.
  unfold set_add. case_bool_decide as Hx.
  - split; [auto|]. intros [?| ->]; done.
  - rewrite elem_of_app, list_elem_of_singleton. done.
Qed.

Lemma set_add_NoDup (s : list string) (x : string) : NoDup s → NoDup (set_add s x).
Proof.
  intros Hnd. unfold set_add. case_bool_decide as Hx; [done|].
  apply NoDup_app. split; [done|]. split; [|apply NoDup_singleton].
  intros y Hy ->%list_elem_of_singleton. done.
Qed.

Lemma inserted_prefix (s ids : list string) : s `prefix_of` foldl set_add s ids.
Proof.
  revert s. induction ids as [|x ids IH]; intros s; simpl; [done|].
  etrans; [|apply IH]. unfold set_add. case_bool_decide; [done|].
  by apply prefix_app_r.
Qed.

Lemma inserted_elem (s ids : list string) (y : string) :
  y ∈ foldl set_add s ids ↔ y ∈ s ∨ y ∈ ids.
Proof.
  revert s. induction ids as [|x ids IH]; intros s; simpl.
  - rewrite elem_of_nil. tauto.
  - rewrite IH, set_add_elem, elem_of_cons. tauto.
Qed.

Lemma inserted_NoDup (s ids : list string) : NoDup s → NoDup (foldl set_add s ids).
Proof.
  revert s. induction ids as [|x ids IH]; intros s Hnd; simpl; [done|].
  by apply IH, set_add_NoDup.
Qed.

Lemma trackRecentlyUsedQuestions_other (questions : list Obj) realm used r :
  r ≠ realm → trackRecentlyUsedQuestions questions realm used !! r = used !! r.
Proof.
  intros Hne. unfold trackRecentlyUsedQuestions.
  case_match; by rewrite lookup_insert_ne.
Qed.

Lemma trackRecentlyUsedQuestions_lookup (questions : list Obj) (realm : string)
    (used : gmap string (list string)) :
  let inserted :=
    foldl set_add (default [] (used !! realm)) (getQuestionId ∘ snd <$> questions) in
  trackRecentlyUsedQuestions questions realm used !! realm
  = Some (if decide (60 < length inserted)%nat
          then slice_from inserted (Z.opp 30) else inserted).
Proof.
  intros inserted. unfold trackRecentlyUsedQuestions. fold inserted.
  replace (- questionCooldownPeriod * 3) with (Z.opp 30) by done.
  replace (questionCooldownPeriod * 6) with 60 by done.
  case_decide as Hbig.
  - replace (60 <? Z.of_nat (length inserted)) with true by lia.
    apply lookup_insert_eq.
  - replace (60 <? Z.of_nat (length inserted)) with false by lia.
    apply lookup_insert_eq.
Qed.

Lemma trackRecentlyUsedQuestions_bound (questions : list Obj) realm used :
  map_Forall (λ _ s, (length s ≤ 60)%nat) used →
  map_Forall (λ _ s, (length s ≤ 60)%nat)
    (trackRecentlyUsedQuestions questions realm used).
Proof.
  intros Hinv r s Hs. destruct (decide (r = realm)) as [->|Hne].
  - rewrite trackRecentlyUsedQuestions_lookup in Hs. simplify_eq.
    case_decide as Hbig; [|lia].
    destruct (slice_from_last
                (foldl set_add (default [] (used !! realm))
                   (getQuestionId ∘ snd <$> questions)) 30) as [_ Hlen]; lia.
  - rewrite trackRecentlyUsedQuestions_other in Hs by done. by eapply Hinv.
Qed.

Lemma filterRecentlyUsedQuestions_bound (questions : list Obj) realm used :
  map_Forall (λ _ s, (length s ≤ 60)%nat) used →
  map_Forall (λ _ s, (length s ≤ 60)%nat)
    (filterRecentlyUsedQuestions questions realm used).2.
Proof.
  intros Hinv. unfold filterRecentlyUsedQuestions. case_match; simpl; [|done].
  apply map_Forall_insert_2; [simpl; lia|done].
Qed.

Lemma getRandomQuestions_used seededRandom db realm count sessionId now random :
  recentlyUsedQuestions
    (getRandomQuestions seededRandom db realm count sessionId now random).1.2
  = (getBalancedQuestionMix (spread (realmCandidates db realm)) count
       (recentlyUsedQuestions db) random).1.2.
Proof.
  unfold getRandomQuestions.
  destruct (getBalancedQuestionMix _ count _ random) as [[questions used] r1].
  destruct (shuffleQuestionOptions questions.*2 r1) as [shuffled r2].
  by destruct (advancedShuffle seededRandom shuffled sessionId now r2).
Qed.

Lemma getBalancedQuestionMix_bound (questions : list Obj) count used random :
  map_Forall (λ _ s, (length s ≤ 60)%nat) used →
  map_Forall (λ _ s, (length s ≤ 60)%nat)
    (getBalancedQuestionMix questions count used random).1.2.
Proof.
  intros Hinv. unfold getBalancedQuestionMix.
  pose proof (filterRecentlyUsedQuestions_bound questions
                (getCurrentRealm questions) used Hinv) as Hf.
  destruct (filterRecentlyUsedQuestions _ _ used) as [available used1].
  destruct (selectQuestions available count random) as [selected r1]. simpl in *.
  by apply trackRecentlyUsedQuestions_bound.
Qed.

(** ** The batch of a request *)

Lemma availablePool_cases db realm :
  availablePool db realm
  = if decide (length (freshCandidates db realm) < 6)%nat
    then spread (realmCandidates db realm) else freshCandidates db realm.
Proof.
  unfold availablePool. rewrite filterRecentlyUsedQuestions_cases.
  fold (freshCandidates db realm). by case_decide.
Qed.

Lemma selectedBatch_sub db realm count random :
  selectedBatch db realm count random ⊆+ availablePool db realm.
Proof.
  pose proof (availablePool_NoDup db realm) as Hnd.
  unfold selectedBatch, getBalancedQuestionMix.
  unfold availablePool, cooldownKey in *.
  destruct (filterRecentlyUsedQuestions _ _ (recentlyUsedQuestions db))
    as [available used1]. simpl in Hnd.
  pose proof (selectQuestions_sub available count random Hnd) as Hsub.
  destruct (selectQuestions available count random) as [selected r1]. simpl in *.
  etrans; [apply sublist_submseteq, slice_sublist|done].
Qed.

Lemma selectedBatch_length db realm count random :
  0 ≤ count →
  length (selectedBatch db realm count random)
  = Z.to_nat (Z.min count (Z.of_nat (length (availablePool db realm)))).
Proof.
  intros Hcount. pose proof (availablePool_NoDup db realm) as Hnd.
  unfold selectedBatch, getBalancedQuestionMix.
  unfold availablePool, cooldownKey in *.
  destruct (filterRecentlyUsedQuestions _ _ (recentlyUsedQuestions db))
    as [available used1]. simpl in Hnd.
  pose proof (selectQuestions_length available count random Hnd Hcount) as Hlen.
  by destruct (selectQuestions available count random) as [selected r1].
Qed.

Lemma selectedBatch_NoDup db realm count random :
  NoDup (selectedBatch db realm count random).*1.
Proof.
  eapply submseteq_NoDup; [|apply (availablePool_NoDup db realm)].
  apply fmap_submseteq, selectedBatch_sub.
Qed.

Lemma selectedBatch_candidates db realm count random :
  (selectedBatch db realm count random).*2 ⊆+ realmCandidates db realm.
Proof.
  assert (Hsub : selectedBatch db realm count random
                 ⊆+ spread (realmCandidates db realm)).
  { etrans; [apply selectedBatch_sub|apply availablePool_sub]. }
  apply (fmap_submseteq snd) in Hsub. by rewrite spread_snd in Hsub.
Qed.

Lemma selectedBatch_identities db realm count random :
  NoDup (getQuestionId <$> realmCandidates db realm) →
  NoDup (getQuestionId <$> (selectedBatch db realm count random).*2).
Proof.
  intros Hnd. eapply submseteq_NoDup; [|exact Hnd].
  apply fmap_submseteq, selectedBatch_candidates.
Qed.

(** The questions returned are the selected ones with their options
    shuffled, in some order. *)
Lemma getRandomQuestions_batch seededRandom db realm count sessionId now random :
  ∃ r, (getRandomQuestions seededRandom db realm count sessionId now random).1.1
       ≡ₚ (shuffleQuestionOptions (selectedBatch db realm count random).*2 r).1.
Proof.
  unfold getRandomQuestions, selectedBatch.
  destruct (getBalancedQuestionMix _ count _ random) as [[questions used] r1].
  exists r1. simpl.
  destruct (shuffleQuestionOptions questions.*2 r1) as [shuffled r2].
  rewrite advancedShuffle_passes.
  destruct (randomPass _ 0 r2 _) as [result r3] eqn:Hpass. simpl.
  change result with (result, r3).1. rewrite <- Hpass.
  by rewrite randomPass_perm, fisherYates_perm.
Qed.

Lemma getRandomQuestions_length seededRandom db realm count sessionId now random :
  length (getRandomQuestions seededRandom db realm count sessionId now random).1.1
  = length (selectedBatch db realm count random).
Proof.
  destruct (getRandomQuestions_batch seededRandom db realm count sessionId now random)
    as [r Hperm].
  by rewrite Hperm, shuffleQuestionOptions_length, length_fmap.
Qed.

(** * The claims *)

Ltac by_evaluation :=
  vm_compute; first [reflexivity | discriminate | exact I | done].

(** ** C1: size and distinctness of a batch *)

(** C1 as stated fails twice. The science corpus holds the question about
    the chemical symbol for gold twice with the same correct index, so a
    batch of all 20 science questions carries one identity twice; and after
    a first batch of 2 for r/worldnews, whose corpus has 8 questions, a
    request for 7 returns the 6 questions that are not on cooldown. *)
Lemma getRandomQuestions_count_counterexample :
  (20 ≤ Z.of_nat (length (realmCandidates newQuestionDatabase "science"))
   ∧ ¬ NoDup (getQuestionId <$> (selectedBatch newQuestionDatabase "science" 20 zeroTape).*2))
  ∧ (7 ≤ Z.of_nat (length (realmCandidates afterWorldnews "worldnews"))
     ∧ length (getRandomQuestions constantSeeded afterWorldnews "worldnews" 7 None 0
                 zeroTape).1.1 ≠ 7%nat).
Proof.
  repeat split.
  - by_evaluation.
  - refine (bool_decide_eq_false_1 _ _). by_evaluation.
  - by_evaluation.
  - by_evaluation.
Qed.

(** C1, amended. For every realm and every count [n] between 0 and the
    number of candidates left by the cooldown filter, [getRandomQuestions]
    returns exactly [n] questions; they are [n] different corpus entries with
    their options shuffled, and their identities are pairwise distinct
    whenever no two questions of the realm's corpus share an identity. *)
Theorem getRandomQuestions_exact_count (seededRandom : Z → Tape) (db : QuestionDatabase)
    (realm : string) (n : Z) (sessionId : option string) (now : Z) (random : Tape) :
  0 ≤ n ≤ Z.of_nat (length (availablePool db realm)) →
  let result := (getRandomQuestions seededRandom db realm n sessionId now random).1.1 in
  let batch := selectedBatch db realm n random in
  length result = Z.to_nat n
  ∧ (∃ r, result ≡ₚ (shuffleQuestionOptions batch.*2 r).1)
  ∧ NoDup batch.*1
  ∧ (NoDup (getQuestionId <$> realmCandidates db realm) →
     NoDup (getQuestionId <$> batch.*2)).
Proof.
  intros Hn result batch. split; [|split; [|split]].
  - unfold result. rewrite getRandomQuestions_length, selectedBatch_length by lia. lia.
  - apply getRandomQuestions_batch.
  - apply selectedBatch_NoDup.
  - apply selectedBatch_identities.
Qed.

Lemma getRandomQuestions_exact_count_witness :
  0 ≤ 6 ≤ Z.of_nat (length (availablePool newQuestionDatabase "gaming"))
  ∧ length (getRandomQuestions constantSeeded newQuestionDatabase "gaming" 6 None 0
              zeroTape).1.1 = 6%nat.
Proof.
  assert (H : 0 ≤ 6 ≤ Z.of_nat (length (availablePool newQuestionDatabase "gaming"))).
  { split; by_evaluation. }
  split; [exact H|].
  exact (proj1 (getRandomQuestions_exact_count constantSeeded newQuestionDatabase
                  "gaming" 6 None 0 zeroTape H)).
Defined.

(** ** C7: a request larger than the corpus *)

(** C7 as stated fails when a cooldown is in force: r/worldnews has 8
    questions; after a first batch of 2, a request for 50 returns the 6
    questions that are not on cooldown, not all 8. *)
Lemma getRandomQuestions_scarce_counterexample :
  length (realmCandidates afterWorldnews "worldnews") = 8%nat
  ∧ length (getRandomQuestions constantSeeded afterWorldnews "worldnews" 50 None 0
              zeroTape).1.1 = 6%nat.
Proof. split; by_evaluation. Qed.

(** C7, amended. When the candidates left by the cooldown filter are fewer
    than [count], [getRandomQuestions] returns exactly that many questions:
    every such candidate once, none twice, nothing made up. That number is
    the size [m] of the realm's corpus when fewer than 6 candidates are off
    cooldown (the cooldown is reset) or all of them are. *)
Theorem getRandomQuestions_scarce (seededRandom : Z → Tape) (db : QuestionDatabase)
    (realm : string) (count : Z) (sessionId : option string) (now : Z) (random : Tape) :
  Z.of_nat (length (availablePool db realm)) < count →
  let result := (getRandomQuestions seededRandom db realm count sessionId now random).1.1 in
  let batch := selectedBatch db realm count random in
  length result = length (availablePool db realm)
  ∧ batch ≡ₚ availablePool db realm
  ∧ (∃ r, result ≡ₚ (shuffleQuestionOptions batch.*2 r).1)
  ∧ ((length (freshCandidates db realm) < 6)%nat
     ∨ length (freshCandidates db realm) = length (realmCandidates db realm) →
     length result = length (realmCandidates db realm)).
Proof.
  intros Hcount result batch.
  assert (Hlen : length batch = length (availablePool db realm)).
  { unfold batch. rewrite selectedBatch_length by lia. lia. }
  assert (Hres : length result = length (availablePool db realm)).
  { unfold result. by rewrite getRandomQuestions_length. }
  split; [done|]. split; [|split].
  - apply submseteq_length_Permutation; [apply selectedBatch_sub|lia].
  - apply getRandomQuestions_batch.
  - intros Hfresh. rewrite Hres, availablePool_cases.
    case_decide as Hsix; [apply spread_length|].
    destruct Hfresh as [Hfresh|Hfresh]; [lia|done].
Qed.

Lemma getRandomQuestions_scarce_witness :
  Z.of_nat (length (availablePool newQuestionDatabase "worldnews")) < 50
  ∧ length (getRandomQuestions constantSeeded newQuestionDatabase "worldnews" 50 None 0
              zeroTape).1.1 = 8%nat.
Proof.
  assert (H : Z.of_nat (length (availablePool newQuestionDatabase "worldnews")) < 50).
  { by_evaluation. }
  split; [exact H|].
  exact (proj1 (getRandomQuestions_scarce constantSeeded newQuestionDatabase
                  "worldnews" 50 None 0 zeroTape H)).
Defined.

(** ** C8: the options of a served question *)

(** C8. Every question [getRandomQuestions] returns is a candidate of the
    realm with its options shuffled: it has as many options as before, and
    when the candidate's correct index is valid, the new correct index is
    valid and points at an option with the text of the option that was
    correct before. *)
Theorem getRandomQuestions_options_preserved (seededRandom : Z → Tape)
    (db : QuestionDatabase) (realm : string) (count : Z) (sessionId : option string)
    (now : Z) (random : Tape) (q' : Question) :
  q' ∈ (getRandomQuestions seededRandom db realm count sessionId now random).1.1 →
  ∃ q r,
    q ∈ realmCandidates db realm
    ∧ q' = (shuffleOptions q r).1
    ∧ length (options q') = length (options q)
    ∧ (0 ≤ correct q < Z.of_nat (length (options q)) →
       0 ≤ correct q' < Z.of_nat (length (options q'))
       ∧ at_index (options q') (correct q') = at_index (options q) (correct q)).
Proof.
  intros Hin.
  destruct (getRandomQuestions_batch seededRandom db realm count sessionId now random)
    as [r0 Hperm].
  rewrite Hperm in Hin.
  apply shuffleQuestionOptions_elem in Hin as (q & r & Hq & ->).
  exists q, r.
  destruct (shuffleOptions_preserves q r) as (_ & Hopts & Hvalid).
  split; [|split; [done|split]].
  - eapply elem_of_submseteq; [exact Hq|apply selectedBatch_candidates].
  - by rewrite Hopts.
  - exact Hvalid.
Qed.

Lemma getRandomQuestions_options_preserved_witness :
  sampleServed
    ∈ (getRandomQuestions constantSeeded newQuestionDatabase "gaming" 6 None 0 zeroTape).1.1
  ∧ ∃ q r,
      q ∈ realmCandidates newQuestionDatabase "gaming"
      ∧ sampleServed = (shuffleOptions q r).1
      ∧ length (options sampleServed) = length (options q)
      ∧ (0 ≤ correct q < Z.of_nat (length (options q)) →
         0 ≤ correct sampleServed < Z.of_nat (length (options sampleServed))
         ∧ at_index (options sampleServed) (correct sampleServed)
           = at_index (options q) (correct q)).
Proof.
  assert (H : sampleServed
    ∈ (getRandomQuestions constantSeeded newQuestionDatabase "gaming" 6 None 0
         zeroTape).1.1).
  { vm_compute. apply list_elem_of_here. }
  split; [exact H|].
  exact (getRandomQuestions_options_preserved constantSeeded newQuestionDatabase
           "gaming" 6 None 0 zeroTape sampleServed H).
Defined.

(** ** C9: the batch shuffle *)

(** C9. [advancedShuffle] returns a rearrangement of its input, whatever the
    session identifier, the clock, the seeded generator and the random
    draws: nothing is added, removed or duplicated. *)
Theorem advancedShuffle_permutation {T} (seededRandom : Z → Tape) (array : list T)
    (sessionId : option string) (now : Z) (random : Tape) :
  (advancedShuffle seededRandom array sessionId now random).1 ≡ₚ array.
Proof.
  rewrite advancedShuffle_passes. cbv zeta.
  etrans; [apply randomPass_perm|]. apply fisherYates_perm.
Qed.

(** ** C6: the cooldown filter *)

(** The scenario of a second request that finds too few fresh questions:
    r/worldnews has 8 questions; after a batch of 6 only 2 are off cooldown,
    so the next request resets the cooldown and selects among all 8. *)
Example filterRecentlyUsedQuestions_scenario :
  let served :=
    (getRandomQuestions constantSeeded newQuestionDatabase "worldnews" 6 None 0
       zeroTape).1.2 in
  length <$> (recentlyUsedQuestions served !! "geography") = Some 6%nat
  ∧ length (freshCandidates served "worldnews") = 2%nat
  ∧ length (availablePool served "worldnews") = 8%nat
  ∧ (filterRecentlyUsedQuestions (spread (realmCandidates served "worldnews"))
       "geography" (recentlyUsedQuestions served)).2 !! "geography" = Some [].
Proof. repeat split; by_evaluation. Qed.

(** C6. [filterRecentlyUsedQuestions] either keeps the cooldown map and
    returns the candidates that are not in the realm's set, or, when fewer
    than 6 of them are left, replaces the realm's set by an empty one and
    returns all the candidates. The batch floor is the literal 6 of the
    code. *)
Theorem filterRecentlyUsedQuestions_reset (questions : list Obj) (realm : string)
    (used : gmap string (list string)) :
  let recentlyUsed := default [] (used !! realm) in
  let fresh := filter (λ q, getQuestionId q.2 ∉ recentlyUsed) questions in
  let result := filterRecentlyUsedQuestions questions realm used in
  if decide (length fresh < 6)%nat
  then result.1 = questions
       ∧ result.2 !! realm = Some []
       ∧ ∀ r, r ≠ realm → result.2 !! r = used !! r
  else result.1 = fresh ∧ result.2 = used.
Proof.
  intros recentlyUsed fresh result. unfold result.
  rewrite filterRecentlyUsedQuestions_cases. fold recentlyUsed. fold fresh.
  case_decide; simpl; [|done].
  split; [done|]. split; [apply lookup_insert_eq|].
  intros r Hr. by apply lookup_insert_ne.
Qed.

(** ** C3: pruning the served set *)

(** C3 as stated fails: recording 61 questions for a realm with no served
    question leaves 30 identities, not the 61 that a cut to the 180 most
    recent ones would keep. *)
Lemma trackRecentlyUsedQuestions_prune_counterexample :
  let questions := numberedQuestion <$> seq 0 61 in
  let inserted := foldl set_add [] (getQuestionId ∘ snd <$> questions) in
  length inserted = 61%nat
  ∧ length (recordServed_spec inserted) = 61%nat
  ∧ length <$> (trackRecentlyUsedQuestions questions "test" ∅ !! "test") = Some 30%nat
  ∧ trackRecentlyUsedQuestions questions "test" ∅ !! "test"
    ≠ Some (recordServed_spec inserted).
Proof.
  repeat split; by_evaluation.
Qed.

(** C3, amended. After the identities of the selected questions are
    inserted, a set of more than [questionCooldownPeriod * 6 = 60] entries
    is cut to its [questionCooldownPeriod * 3 = 30] most recently added
    entries; a set of at most 60 entries is kept whole. *)
Theorem trackRecentlyUsedQuestions_prune (questions : list Obj) (realm : string)
    (used : gmap string (list string)) :
  let inserted :=
    foldl set_add (default [] (used !! realm)) (getQuestionId ∘ snd <$> questions) in
  ∃ kept,
    trackRecentlyUsedQuestions questions realm used !! realm = Some kept
    ∧ kept = (if decide (60 < length inserted)%nat
              then drop (length inserted - 30) inserted else inserted)
    ∧ length kept = (if decide (60 < length inserted)%nat
                     then 30%nat else length inserted).
Proof.
  intros inserted. rewrite trackRecentlyUsedQuestions_lookup. fold inserted.
  eexists. split; [done|]. case_decide as Hbig; [|done].
  destruct (slice_from_last inserted 30) as [Heq Hlen]; [lia|].
  rewrite Heq. split; [done|]. rewrite length_drop. lia.
Qed.

(** ** C10: the bound on the served sets *)

(** C10. On return from every public operation, every realm's set of
    recently used identities holds at most [questionCooldownPeriod * 6 = 60]
    entries. *)
Theorem recentlyUsed_bounded (seededRandom : Z → Tape) (db : QuestionDatabase) :
  reachable seededRandom db →
  map_Forall (λ _ s, (length s ≤ 60)%nat) (recentlyUsedQuestions db).
Proof.
  induction 1 as [bank|db realm count sessionId now random Hreach IH
                  |db realm Hreach IH].
  - simpl. apply map_Forall_empty.
  - rewrite getRandomQuestions_used. by apply getBalancedQuestionMix_bound.
  - unfold clearRecentlyUsedQuestions.
    destruct realm as [[|c r]|]; simpl; try apply map_Forall_empty.
    by apply map_Forall_delete.
Qed.

Lemma recentlyUsed_bounded_witness :
  reachable constantSeeded (clearRecentlyUsedQuestions afterWorldnews (Some "gaming"))
  ∧ map_Forall (λ _ s, (length s ≤ 60)%nat)
      (recentlyUsedQuestions (clearRecentlyUsedQuestions afterWorldnews (Some "gaming"))).
Proof.
  assert (H : reachable constantSeeded
                (clearRecentlyUsedQuestions afterWorldnews (Some "gaming"))).
  { apply reachable_clearRecentlyUsedQuestions.
    apply reachable_getRandomQuestions.
    apply (reachable_new constantSeeded initializeQuestionBank). }
  split; [exact H|].
  exact (recentlyUsed_bounded constantSeeded _ H).
Defined.

(** ** C2: relocation of the correct index *)

Lemma swap_fmap {A B} (f : A → B) (a : list A) i j :
  swap (f <$> a) i j = f <$> swap a i j.
Proof.
  unfold swap. rewrite !list_lookup_fmap.
  destruct (a !! i) as [x|]; simpl; [|done].
  destruct (a !! j) as [y|]; simpl; [|done].
  by rewrite !list_fmap_insert.
Qed.

Lemma fisherYates_fmap {A B} (f : A → B) i random (a : list A) :
  (fisherYates i random (f <$> a)).1 = f <$> (fisherYates i random a).1.
Proof.
  revert random a. induction i as [|i IH]; intros random a; simpl; [done|].
  by rewrite swap_fmap, IH.
Qed.

Lemma shuffleArray_fmap {A B} (f : A → B) (a : list A) random :
  (shuffleArray (f <$> a) random).1 = f <$> (shuffleArray a random).1.
Proof. unfold shuffleArray. rewrite length_fmap. apply fisherYates_fmap. Qed.

(** In a list of tagged texts where exactly the entries tagged [tag] carry
    the text [x], looking for the text and looking for the tag agree. *)
Lemma indexOf_position (l : list (nat * string)) (x : string) (tag : nat) (i : Z) :
  (∀ t s, (t, s) ∈ l → s = x ↔ t = tag) →
  indexOf_from l.*2 x i = position_from l.*1 tag i.
Proof.
  revert i. induction l as [|[t s] l IH]; intros i Hl; [done|].
  simpl. pose proof (Hl t s (list_elem_of_here _ _)) as Hts.
  repeat case_bool_decide; try done; try tauto.
  apply IH. intros t' s' Hin. apply Hl. by right.
Qed.

(** X10. Where the option texts of a question are pairwise different, the
    code's lookup by text finds the place the correct option was moved to. *)
Lemma shuffleOptions_tracks_distinct (q : Question) (random : Tape) :
  NoDup (options q) → 0 ≤ correct q < Z.of_nat (length (options q)) →
  correct (shuffleOptions q random).1 = trackedCorrectIndex q random.
Proof.
  intros Hnd Hvalid. unfold shuffleOptions, trackedCorrectIndex.
  set (tagged := zip (seq 0 (length (options q))) (options q)).
  assert (Hsnd : tagged.*2 = options q).
  { apply snd_zip. by rewrite length_seq. }
  pose proof (shuffleArray_fmap snd tagged random) as Hmap. rewrite Hsnd in Hmap.
  pose proof (shuffleArray_perm tagged random) as Hperm.
  destruct (shuffleArray tagged random) as [shuffled r1].
  destruct (shuffleArray (options q) random) as [shuffledOptions r2].
  simpl in *. subst shuffledOptions.
  replace ((correct q <? 0) || (Z.of_nat (length (options q)) <=? correct q))
    with false by lia.
  destruct (at_index_valid (options q) (correct q) Hvalid) as [x Hx].
  rewrite Hx. simpl. apply indexOf_position.
  intros t s Hin. rewrite Hperm in Hin.
  apply list_elem_of_lookup in Hin as [k Hk].
  apply lookup_zip_Some in Hk as [Hseq Hopt].
  apply lookup_seq in Hseq as [Ht _]. simpl in Ht. subst t.
  unfold at_index in Hx. replace (correct q <? 0) with false in Hx by lia.
  split.
  - intros ->. eapply NoDup_lookup; eauto.
  - intros ->. congruence.
Qed.

Lemma relocation_by_text_tracks (opts : list string) (c : nat) (x : string)
    (random : Tape) :
  NoDup opts → opts !! c = Some x →
  indexOf (shuffleArray opts random).1 (Some x)
  = position_from (shuffleArray (zip (seq 0 (length opts)) opts) random).1.*1 c 0.
Proof.
  intros Hnd Hx.
  set (tagged := zip (seq 0 (length opts)) opts).
  assert (Hsnd : tagged.*2 = opts).
  { apply snd_zip. by rewrite length_seq. }
  pose proof (shuffleArray_fmap snd tagged random) as Hmap. rewrite Hsnd in Hmap.
  pose proof (shuffleArray_perm tagged random) as Hperm.
  rewrite Hmap. simpl. apply indexOf_position.
  intros t s Hin. rewrite Hperm in Hin.
  apply list_elem_of_lookup in Hin as [k Hk].
  apply lookup_zip_Some in Hk as [Hseq Hopt].
  apply lookup_seq in Hseq as [Ht _]. simpl in Ht. subst t.
  split.
  - intros ->. eapply NoDup_lookup; eauto.
  - intros ->. congruence.
Qed.

(** C2 as stated fails. The question [twinOptions] has the text "A" at
    positions 0 and 1 and position 1 correct. Under draws that leave every
    option in its place, the correct option stays at position 1, which is
    what tracking the position gives; [shuffleQuestionOptions] looks the
    text up and reports position 0. *)
Theorem shuffleOptions_twin_texts :
  options (shuffleOptions twinOptions identityTape).1 = options twinOptions
  ∧ correct twinOptions = 1
  ∧ trackedCorrectIndex twinOptions identityTape = 1
  ∧ correct (shuffleOptions twinOptions identityTape).1 = 0
  ∧ (shuffleQuestionOptions [twinOptions] identityTape).1
    = [(shuffleOptions twinOptions identityTape).1].
Proof. repeat split. Qed.

(** C2, amended. For every question with a valid correct index, also one
    with two identical option texts, [shuffleQuestionOptions] relocates the
    correct index by text: the new correct index is the first position of
    the shuffled options that holds the text of the originally correct
    option. Where the option texts are pairwise different this is the
    position the originally correct option was moved to. *)
Theorem shuffleOptions_first_by_text (q : Question) (random : Tape) :
  0 ≤ correct q < Z.of_nat (length (options q)) →
  ∃ (text : string) (i : nat),
    at_index (options q) (correct q) = Some text
    ∧ correct (shuffleOptions q random).1 = Z.of_nat i
    ∧ options (shuffleOptions q random).1 !! i = Some text
    ∧ (∀ m : nat, (m < i)%nat → options (shuffleOptions q random).1 !! m ≠ Some text)
    ∧ (NoDup (options q) →
       correct (shuffleOptions q random).1 = trackedCorrectIndex q random).
Proof.
  intros Hvalid.
  destruct (at_index_valid (options q) (correct q) Hvalid) as [text Htext].
  assert (Hcode : options (shuffleOptions q random).1 = (shuffleArray (options q) random).1
                  ∧ correct (shuffleOptions q random).1
                    = indexOf (shuffleArray (options q) random).1 (Some text)).
  { unfold shuffleOptions. rewrite Htext.
    by destruct (shuffleArray (options q) random). }
  destruct Hcode as [-> ->].
  assert (Hin : text ∈ (shuffleArray (options q) random).1).
  { rewrite shuffleArray_perm. by eapply at_index_elem_of. }
  destruct (indexOf_from_found _ text 0 Hin) as (i & Hi & Hlook & Hfirst).
  exists text, i. split; [done|]. split; [simpl; lia|]. split; [done|].
  split; [done|]. intros Hnd.
  unfold at_index in Htext. replace (correct q <? 0) with false in Htext by lia.
  rewrite (relocation_by_text_tracks _ (Z.to_nat (correct q)) text random Hnd Htext).
  unfold trackedCorrectIndex.
  replace ((correct q <? 0) || (Z.of_nat (length (options q)) <=? correct q))
    with false by lia.
  by destruct (shuffleArray (zip _ (options q)) random).
Qed.

Lemma shuffleOptions_first_by_text_witness :
  0 ≤ correct twinOptions < Z.of_nat (length (options twinOptions))
  ∧ ∃ (text : string) (i : nat),
      at_index (options twinOptions) (correct twinOptions) = Some text
      ∧ correct (shuffleOptions twinOptions identityTape).1 = Z.of_nat i
      ∧ options (shuffleOptions twinOptions identityTape).1 !! i = Some text
      ∧ (∀ m : nat, (m < i)%nat →
           options (shuffleOptions twinOptions identityTape).1 !! m ≠ Some text)
      ∧ (NoDup (options twinOptions) →
         correct (shuffleOptions twinOptions identityTape).1
         = trackedCorrectIndex twinOptions identityTape).
Proof.
  assert (H : 0 ≤ correct twinOptions < Z.of_nat (length (options twinOptions))).
  { simpl. lia. }
  split; [exact H|]. exact (shuffleOptions_first_by_text twinOptions identityTape H).
Defined.

Lemma wellFormed_spec (q : Question) :
  wellFormed q = true →
  NoDup (options q) ∧ 0 ≤ correct q < Z.of_nat (length (options q)).
Proof.
  unfold wellFormed. intros [[Hnd Hlow]%andb_prop Hhigh]%andb_prop.
  apply bool_decide_eq_true in Hnd. split; [done|lia].
Qed.

(** The questions [shuffleQuestionOptions] receives from the shipped bank,
    whatever the realm, have pairwise different option texts and a valid
    correct index. *)
Lemma corpus_wellFormed (realm : string) (q : Question) :
  q ∈ realmCandidates newQuestionDatabase realm →
  NoDup (options q) ∧ 0 ≤ correct q < Z.of_nat (length (options q)).
Proof.
  assert (Hbank : ∀ key questions,
            initializeQuestionBank !! key = Some questions →
            forallb wellFormed questions = true).
  { intros key questions Hkey. unfold initializeQuestionBank in Hkey.
    repeat (rewrite lookup_insert in Hkey; case_decide;
            [injection Hkey as <-; by_evaluation|]).
    by rewrite lookup_empty in Hkey. }
  assert (Hbasic : forallb wellFormed getBasicFallbackQuestions = true)
    by by_evaluation.
  assert (Hlist : ∀ questions, forallb wellFormed questions = true → q ∈ questions →
            NoDup (options q) ∧ 0 ≤ correct q < Z.of_nat (length (options q))).
  { intros questions Hall Hq. rewrite forallb_forall in Hall.
    by apply wellFormed_spec, Hall, list_elem_of_In. }
  unfold realmCandidates. cbn [questionBank newQuestionDatabase].
  destruct (initializeQuestionBank !! normalizeRealmName realm) as [[|q0 qs]|] eqn:Hown.
  - destruct (initializeQuestionBank !! "general") as [[|g gs]|] eqn:Hgen; cbn [default];
      eauto.
  - eauto.
  - destruct (initializeQuestionBank !! "general") as [[|g gs]|] eqn:Hgen; cbn [default];
      eauto.
Qed.

(** So for every question the shipped bank can hand to
    [shuffleQuestionOptions], the lookup by text gives the position the
    correct option was moved to. *)
Lemma corpus_relocation_tracked (realm : string) (q : Question) (random : Tape) :
  q ∈ realmCandidates newQuestionDatabase realm →
  correct (shuffleOptions q random).1 = trackedCorrectIndex q random.
Proof.
  intros [Hnd Hvalid]%corpus_wellFormed.
  destruct (at_index_valid (options q) (correct q) Hvalid) as [text Htext].
  unfold shuffleOptions, trackedCorrectIndex. rewrite Htext.
  replace ((correct q <? 0) || (Z.of_nat (length (options q)) <=? correct q))
    with false by lia.
  unfold at_index in Htext. replace (correct q <? 0) with false in Htext by lia.
  pose proof (relocation_by_text_tracks _ (Z.to_nat (correct q)) text random Hnd Htext)
    as Htracks.
  destruct (shuffleArray (options q) random).
  by destruct (shuffleArray (zip _ (options q)) random).
Qed.

(** ** C4: the tier targets *)

Example ceil_04_values :
  ceil_04 0 = 0 ∧ ceil_04 1 = 1 ∧ ceil_04 3 = 2 ∧ ceil_04 5 = 2
  ∧ ceil_04 6 = 3 ∧ ceil_04 50 = 20.
Proof. repeat split. Qed.

Lemma pushTier_picks_length (tier : list Obj) (target : Z) (selected : list Obj) random :
  0 ≤ target →
  ∃ picks, (pushTier tier target selected random).1 = selected ++ picks
           ∧ length picks = Z.to_nat (Z.min target (Z.of_nat (length tier))).
Proof.
  intros Htarget. unfold pushTier. destruct (0 <? Z.of_nat (length tier)) eqn:Hpos.
  - destruct (shuffleArray tier random) as [shuffled rest] eqn:Hsh. simpl.
    eexists. split; [done|]. rewrite slice_0_length by lia.
    assert (length shuffled = length tier) as ->; [|lia].
    change shuffled with (shuffled, rest).1. rewrite <- Hsh.
    apply shuffleArray_length.
  - exists []. simpl. split; [by rewrite app_nil_r|]. lia.
Qed.

Lemma tier_filter_same (d : Difficulty) (picks l : list Obj) :
  picks ⊆+ filter (has_difficulty d) l → filter (has_difficulty d) picks = picks.
Proof.
  intros Hsub. induction picks as [|x picks IH]; [done|].
  rewrite filter_cons. case_decide as Hx.
  - f_equal. apply IH. etrans; [|exact Hsub]. by apply submseteq_cons.
  - exfalso. apply Hx.
    assert (Hin : x ∈ filter (has_difficulty d) l).
    { eapply elem_of_submseteq; [|exact Hsub]. left. }
    by apply list_elem_of_filter in Hin as [? _].
Qed.

Lemma tier_filter_other (d d' : Difficulty) (picks l : list Obj) :
  d ≠ d' → picks ⊆+ filter (has_difficulty d) l → filter (has_difficulty d') picks = [].
Proof.
  intros Hne Hsub. induction picks as [|x picks IH]; [done|].
  assert (Hin : x ∈ filter (has_difficulty d) l).
  { eapply elem_of_submseteq; [|exact Hsub]. left. }
  apply list_elem_of_filter in Hin as [Hd _].
  rewrite filter_cons. case_decide as Hx.
  - unfold has_difficulty in *. congruence.
  - apply IH. etrans; [|exact Hsub]. by apply submseteq_cons.
Qed.

(** Where the targets are not negative the tier-targeted phase takes
    [min(target, bucket size)] questions of each tier: [ceil(0.4 * count)]
    for the easy and the medium tier, the remainder for the hard tier. *)
Lemma tierPicks_counts (availableQuestions : list Obj) (count : Z) random :
  0 ≤ count →
  let picks := (tierPicks availableQuestions count random).1 in
  let bucket d := Z.of_nat (length (filter (has_difficulty d) availableQuestions)) in
  length (filter (has_difficulty easy) picks)
    = Z.to_nat (Z.min (ceil_04 count) (bucket easy))
  ∧ length (filter (has_difficulty medium) picks)
    = Z.to_nat (Z.min (ceil_04 count) (bucket medium))
  ∧ (0 ≤ count - ceil_04 count - ceil_04 count →
     length (filter (has_difficulty hard) picks)
     = Z.to_nat (Z.min (count - ceil_04 count - ceil_04 count) (bucket hard))).
Proof.
  intros Hcount picks bucket. unfold picks, bucket, tierPicks.
  assert (Hceil : 0 ≤ ceil_04 count).
  { unfold ceil_04. apply Z.div_pos; lia. }
  destruct (pushTier_picks (filter (has_difficulty easy) availableQuestions)
              (ceil_04 count) [] random) as (pe & He & Hpe).
  destruct (pushTier_picks_length (filter (has_difficulty easy) availableQuestions)
              (ceil_04 count) [] random Hceil) as (pe' & He' & Hle).
  rewrite He in He'. simpl in He'. subst pe'.
  destruct (pushTier _ (ceil_04 count) [] random) as [s1 r1]. simpl in He. subst s1.
  destruct (pushTier_picks (filter (has_difficulty medium) availableQuestions)
              (ceil_04 count) pe r1) as (pm & Hm & Hpm).
  destruct (pushTier_picks_length (filter (has_difficulty medium) availableQuestions)
              (ceil_04 count) pe r1 Hceil) as (pm' & Hm' & Hlm).
  rewrite Hm in Hm'. apply app_inv_head in Hm'. subst pm'.
  destruct (pushTier _ (ceil_04 count) pe r1) as [s2 r2]. simpl in Hm. subst s2.
  destruct (pushTier_picks (filter (has_difficulty hard) availableQuestions)
              (count - ceil_04 count - ceil_04 count) (pe ++ pm) r2) as (ph & Hh & Hph).
  rewrite Hh, !filter_app.
  rewrite (tier_filter_same easy pe _ Hpe), (tier_filter_same medium pm _ Hpm).
  rewrite (tier_filter_other medium easy pm _ ltac:(done) Hpm).
  rewrite (tier_filter_other hard easy ph _ ltac:(done) Hph).
  rewrite (tier_filter_other easy medium pe _ ltac:(done) Hpe).
  rewrite (tier_filter_other hard medium ph _ ltac:(done) Hph).
  rewrite (tier_filter_other easy hard pe _ ltac:(done) Hpe).
  rewrite (tier_filter_other medium hard pm _ ltac:(done) Hpm).
  rewrite (tier_filter_same hard ph _ Hph). simpl. rewrite !app_nil_r.
  split; [done|]. split; [done|]. intros Hhard.
  destruct (pushTier_picks_length (filter (has_difficulty hard) availableQuestions)
              (count - ceil_04 count - ceil_04 count) (pe ++ pm) r2 Hhard)
    as (ph' & Hh' & Hlh).
  rewrite Hh in Hh'. apply app_inv_head in Hh'. by subst ph'.
Qed.

(** C4, on the code. For [count = 3] the targets are 2 easy, 2 medium and
    [3 - 2 - 2 = -1] hard; the target is not clamped, and
    [slice(0, Math.min(-1, 2))] takes all but the last of the 2 shuffled hard
    science questions. The extra picks are cut from the batch but recorded
    as served: the batch has 3 questions, the cooldown set 5 identities. *)
Theorem tierPicks_negative_hard_target :
  let candidates := spread (realmCandidates newQuestionDatabase "science") in
  ceil_04 3 = 2
  ∧ 3 ≤ 2 * ceil_04 3
  ∧ length (filter (has_difficulty hard) candidates) = 2%nat
  ∧ hardPicked candidates 3 zeroTape = 1%nat
  ∧ length (tierPicks candidates 3 zeroTape).1 = 5%nat
  ∧ length (getRandomQuestions constantSeeded newQuestionDatabase "science" 3 None 0
              zeroTape).1.1 = 3%nat
  ∧ length <$> (recentlyUsedQuestions
       (getRandomQuestions constantSeeded newQuestionDatabase "science" 3 None 0
          zeroTape).1.2 !! "science") = Some 5%nat.
Proof. repeat split; by_evaluation. Qed.

(** ** C5: clearing a realm's cooldown *)

Lemma toLowerCase_nonempty (s : string) : s ≠ "" → toLowerCase s ≠ "".
Proof. by destruct s. Qed.

Lemma getCurrentRealm_nonempty (questions : list Obj) : getCurrentRealm questions ≠ "".
Proof.
  unfold getCurrentRealm. destruct questions as [|[n q] rest]; [done|].
  case_bool_decide; [done|]. by apply toLowerCase_nonempty.
Qed.

Lemma filter_all {T} (P : T → Prop) `{!∀ x, Decision (P x)} (l : list T) :
  (∀ x, P x) → filter P l = l.
Proof.
  intros HP. induction l as [|x l IH]; [done|].
  rewrite filter_cons. case_decide as Hx; [by rewrite IH|]. by destruct Hx.
Qed.

Lemma clearRecentlyUsedQuestions_bank (db : QuestionDatabase) (realm : option string) :
  questionBank (clearRecentlyUsedQuestions db realm) = questionBank db.
Proof. by destruct realm as [[|c r]|]. Qed.

Lemma realmCandidates_bank (db1 db2 : QuestionDatabase) (realm : string) :
  questionBank db1 = questionBank db2 →
  realmCandidates db1 realm = realmCandidates db2 realm.
Proof. intros Hbank. unfold realmCandidates. by rewrite Hbank. Qed.

(** X17. Called with the key the served set is stored under,
    [clearRecentlyUsedQuestions] does empty the set the next request
    consults: no candidate is filtered out. *)
Lemma clearRecentlyUsedQuestions_by_key (db : QuestionDatabase) (realm : string) :
  let cleared := clearRecentlyUsedQuestions db (Some (cooldownKey db realm)) in
  recentlyUsedQuestions cleared !! cooldownKey cleared realm = None
  ∧ availablePool cleared realm = spread (realmCandidates cleared realm).
Proof.
  intros cleared.
  assert (Hkey : cooldownKey cleared realm = cooldownKey db realm).
  { unfold cooldownKey. f_equal. f_equal. apply realmCandidates_bank.
    apply clearRecentlyUsedQuestions_bank. }
  assert (Hnone : recentlyUsedQuestions cleared !! cooldownKey cleared realm = None).
  { rewrite Hkey. unfold cleared, clearRecentlyUsedQuestions.
    pose proof (getCurrentRealm_nonempty (spread (realmCandidates db realm))) as Hne.
    fold (cooldownKey db realm) in Hne.
    destruct (cooldownKey db realm) as [|c r]; [done|]. apply lookup_delete_eq. }
  split; [done|].
  rewrite availablePool_cases. unfold freshCandidates. rewrite Hnone. simpl.
  case_decide; [done|]. apply filter_all. intros q. apply not_elem_of_nil.
Qed.

(** C5, on the code. The served set of r/worldnews is kept under the key
    "geography", the lower-cased topic of the realm's first question.
    [clearRecentlyUsedQuestions("worldnews")] deletes the key "worldnews", so
    the two identities served before are still there, and the next request
    has 6 of the 8 candidates to choose from. *)
Theorem clearRecentlyUsedQuestions_other_key :
  let cleared := clearRecentlyUsedQuestions afterWorldnews (Some "worldnews") in
  cooldownKey cleared "worldnews" = "geography"
  ∧ recentlyUsedQuestions cleared !! "geography"
    = Some ["Which country has the largest population?-1";
            "What is the most spoken language in the world?-1"]
  ∧ recentlyUsedQuestions cleared = recentlyUsedQuestions afterWorldnews
  ∧ length (realmCandidates cleared "worldnews") = 8%nat
  ∧ length (availablePool cleared "worldnews") = 6%nat.
Proof. repeat split; by_evaluation. Qed.

(** * Further properties of the class and of its callers *)

(** ** The session hash *)

Lemma toInt32_range (n : Z) : - 2 ^ 31 ≤ toInt32 n < 2 ^ 31.
Proof.
  unfold toInt32. pose proof (Z.mod_pos_bound (n + 2 ^ 31) (2 ^ 32)). lia.
Qed.

Lemma toInt32_wrap (n k : Z) : toInt32 (n + k * 2 ^ 32) = toInt32 n.
Proof.
  unfold toInt32. f_equal.
  replace (n + k * 2 ^ 32 + 2 ^ 31) with (n + 2 ^ 31 + k * 2 ^ 32) by lia.
  apply Z_mod_plus_full.
Qed.

Lemma toInt32_quotient (n : Z) : ∃ k, toInt32 n = n + k * 2 ^ 32.
Proof.
  exists (- ((n + 2 ^ 31) / 2 ^ 32)). unfold toInt32.
  pose proof (Z.div_mod (n + 2 ^ 31) (2 ^ 32)). lia.
Qed.

Lemma hash_step (hash char : Z) :
  toInt32 ((toInt32 (Z.shiftl (toInt32 hash) 5) - toInt32 hash) + char)
  = toInt32 (hash * 31 + char).
Proof.
  rewrite Z.shiftl_mul_pow2 by lia.
  destruct (toInt32_quotient hash) as [k Hk].
  destruct (toInt32_quotient (toInt32 hash * 2 ^ 5)) as [k' Hk'].
  rewrite Hk', Hk.
  replace ((hash + k * 2 ^ 32) * 2 ^ 5 + k' * 2 ^ 32 - (hash + k * 2 ^ 32) + char)
    with (hash * 31 + char + (31 * k + k') * 2 ^ 32) by lia.
  apply toInt32_wrap.
Qed.

Lemma hashLoop_polynomial (s : string) (hash : Z) :
  hashLoop s (toInt32 hash) = toInt32 (polynomial31 s hash).
Proof.
  revert hash. induction s as [|c s IH]; intros hash; simpl; [done|].
  by rewrite hash_step, IH.
Qed.

(** X1. [hashCode] is the absolute value of the base-31 polynomial of the
    character codes wrapped to the signed 32-bit range ([(hash << 5) - hash]
    is [hash * 31]); it lies between 0 and 2^31, the upper end included,
    since [Math.abs] of the least 32-bit integer does not fit in 32 bits. *)
Theorem hashCode_polynomial (str : string) :
  hashCode str = Z.abs (toInt32 (polynomial31 str 0))
  ∧ 0 ≤ hashCode str ≤ 2 ^ 31.
Proof.
  assert (Heq : hashCode str = Z.abs (toInt32 (polynomial31 str 0))).
  { unfold hashCode. by rewrite <- hashLoop_polynomial. }
  split; [done|]. rewrite Heq.
  pose proof (toInt32_range (polynomial31 str 0)). lia.
Qed.

(** ** Realm names *)

Lemma lower_ascii_idempotent (c : ascii) : lower_ascii (lower_ascii c) = lower_ascii c.
Proof. by destruct c as [[] [] [] [] [] [] [] []]. Qed.

Lemma toLowerCase_idempotent (s : string) : toLowerCase (toLowerCase s) = toLowerCase s.
Proof.
  induction s as [|c s IH]; simpl; [done|]. by rewrite lower_ascii_idempotent, IH.
Qed.

Lemma toLowerCase_prefix (s : string) :
  String.prefix "r/" (toLowerCase s) = false → String.prefix "r/" s = false.
Proof.
  destruct s as [|c1 [|c2 s]]; [done| |].
  - intros _. cbn [String.prefix]. by destruct (ascii_dec "r" c1).
  - cbn [String.prefix toLowerCase].
    destruct (ascii_dec "r" c1) as [<-|Hne1]; [|done].
    destruct (ascii_dec "/" c2) as [<-|Hne2]; [|done].
    by destruct s.
Qed.

Lemma normalizeRealmName_plain (s : string) :
  String.prefix "r/" s = false → normalizeRealmName s = toLowerCase s.
Proof.
  intros Hprefix. unfold normalizeRealmName. f_equal.
  destruct s as [|c1 [|c2 s]]; [done| |].
  - by destruct c1 as [[] [] [] [] [] [] [] []].
  - cbn [String.prefix] in Hprefix.
    destruct (ascii_dec "r" c1) as [<-|Hne1].
    + destruct (ascii_dec "/" c2) as [<-|Hne2]; [by destruct s|].
      destruct c2 as [[] [] [] [] [] [] [] []]; reflexivity || by destruct Hne2.
    + destruct c1 as [[] [] [] [] [] [] [] []]; reflexivity || by destruct Hne1.
Qed.

(** X2. A realm may be named with or without one leading [r/] and in any
    letter case: as long as the lower-cased name does not itself start with
    [r/], the name, its lower-case form and the name behind an [r/] prefix
    are normalized to the same key, and normalizing again changes nothing. *)
Theorem normalizeRealmName_variants (s : string) :
  String.prefix "r/" (toLowerCase s) = false →
  normalizeRealmName s = toLowerCase s
  ∧ normalizeRealmName ("r/" +:+ s) = toLowerCase s
  ∧ normalizeRealmName (toLowerCase s) = toLowerCase s
  ∧ normalizeRealmName (normalizeRealmName s) = normalizeRealmName s.
Proof.
  intros Hprefix.
  assert (H1 : normalizeRealmName s = toLowerCase s).
  { by apply normalizeRealmName_plain, toLowerCase_prefix. }
  assert (H3 : normalizeRealmName (toLowerCase s) = toLowerCase s).
  { rewrite normalizeRealmName_plain by done. apply toLowerCase_idempotent. }
  split; [done|]. split; [done|]. split; [done|]. by rewrite H1.
Qed.

Lemma normalizeRealmName_variants_witness :
  String.prefix "r/" (toLowerCase "Gaming") = false
  ∧ normalizeRealmName "r/Gaming" = "gaming".
Proof.
  assert (H : String.prefix "r/" (toLowerCase "Gaming") = false) by reflexivity.
  split; [exact H|].
  exact (proj1 (proj2 (normalizeRealmName_variants "Gaming" H))).
Defined.

(** ** Candidates, counts and statistics *)

Lemma realmCandidates_nonempty (db : QuestionDatabase) (realm : string) :
  realmCandidates db realm ≠ [].
Proof.
  unfold realmCandidates.
  destruct (questionBank db !! normalizeRealmName realm) as [[|q qs]|];
    try done; by destruct (default [] (questionBank db !! "general")).
Qed.

(** X3. [getQuestionCount] tells whether a realm has questions of its own:
    when it is not 0, the candidates of the realm are exactly the bank's
    list under the normalized name, [getQuestionCount] many; when it is 0
    (unknown realm or empty list), the candidates are those of the realm
    "general". In both cases there is at least one candidate. *)
Theorem getQuestionCount_candidates (db : QuestionDatabase) (realm : string) :
  (if decide (getQuestionCount db realm = O)
   then realmCandidates db realm = realmCandidates db "general"
   else questionBank db !! normalizeRealmName realm = Some (realmCandidates db realm)
        ∧ length (realmCandidates db realm) = getQuestionCount db realm)
  ∧ realmCandidates db realm ≠ [].
Proof.
  split; [|apply realmCandidates_nonempty].
  unfold getQuestionCount, realmCandidates.
  change (normalizeRealmName "general") with "general".
  destruct (questionBank db !! normalizeRealmName realm) as [[|q qs]|] eqn:Hown;
    simpl; try done.
  - by destruct (questionBank db !! "general") as [[|q qs]|].
  - by destruct (questionBank db !! "general") as [[|q qs]|].
Qed.

Lemma countDifficulty_sum (questions : list Question) :
  (countDifficulty easy questions + countDifficulty medium questions
   + countDifficulty hard questions = length questions)%nat.
Proof.
  unfold countDifficulty. induction questions as [|q questions IH]; [done|].
  rewrite !filter_cons. destruct (difficulty q); repeat case_decide; try done;
    simpl; lia.
Qed.

Lemma foldl_total (values : list (list Question)) (start : nat) :
  foldl (λ sum realm, (sum + total realm)%nat) start
    ((λ questions,
        {| total := length questions;
           easyCount := countDifficulty easy questions;
           mediumCount := countDifficulty medium questions;
           hardCount := countDifficulty hard questions |}) <$> values)
  = foldl (λ total questions, (total + length questions)%nat) start values.
Proof.
  revert start. induction values as [|v values IH]; intros start; simpl; [done|].
  apply IH.
Qed.

(** X4. The statistics agree with the bank and with each other: every
    entry of [getQuestionStats] belongs to a realm of the bank, its total
    is the number of the realm's questions and the sum of its easy, medium
    and hard counts; the [totalQuestions] of the [/api/question-stats]
    response is [getTotalQuestionCount], and [totalRealms] is the number of
    available realms. *)
Theorem getQuestionStats_consistent (db : QuestionDatabase) :
  (∀ realm stats, getQuestionStats db !! realm = Some stats →
     ∃ questions, questionBank db !! realm = Some questions
       ∧ total stats = length questions
       ∧ total stats = (easyCount stats + mediumCount stats + hardCount stats)%nat)
  ∧ statsTotalQuestions db = getTotalQuestionCount db
  ∧ statsTotalRealms db = length (getAvailableRealms db)
  ∧ statsTotalRealms db = size (questionBank db).
Proof.
  split; [|split; [|split]].
  - intros realm stats Hstats. unfold getQuestionStats in Hstats.
    rewrite lookup_fmap in Hstats.
    destruct (questionBank db !! realm) as [questions|]; [|done].
    simpl in Hstats. simplify_eq. exists questions. simpl.
    split; [done|]. split; [done|]. by rewrite countDifficulty_sum.
  - unfold statsTotalQuestions, getTotalQuestionCount, bankValues, getQuestionStats.
    rewrite map_to_list_fmap, <- list_fmap_compose.
    rewrite <- foldl_total, <- list_fmap_compose. done.
  - unfold statsTotalRealms, getAvailableRealms, getQuestionStats.
    by rewrite map_to_list_fmap, !length_fmap.
  - unfold statsTotalRealms, getQuestionStats.
    by rewrite map_to_list_fmap, !length_fmap, length_map_to_list.
Qed.

(** X5. [getAvailableRealms] lists every key of the bank once and nothing
    else; a realm with a non-zero [getQuestionCount] is listed under its
    normalized name. *)
Theorem getAvailableRealms_keys (db : QuestionDatabase) :
  NoDup (getAvailableRealms db)
  ∧ (∀ realm, realm ∈ getAvailableRealms db ↔ is_Some (questionBank db !! realm))
  ∧ (∀ realm, getQuestionCount db realm ≠ O →
       normalizeRealmName realm ∈ getAvailableRealms db).
Proof.
  assert (Hin : ∀ realm,
            realm ∈ getAvailableRealms db ↔ is_Some (questionBank db !! realm)).
  { intros realm. unfold getAvailableRealms. rewrite list_elem_of_fmap. split.
    - intros ([k v] & -> & Hkv). apply elem_of_map_to_list in Hkv. by exists v.
    - intros [v Hv]. exists (realm, v). split; [done|]. by apply elem_of_map_to_list. }
  split; [apply NoDup_fst_map_to_list|]. split; [done|].
  intros realm Hcount. apply Hin. unfold getQuestionCount in Hcount.
  by destruct (questionBank db !! normalizeRealmName realm).
Qed.

(** ** What the shuffles can produce *)

Lemma swap_lookup {T} (a : list T) (i j m : nat) :
  (i < length a)%nat → (j < length a)%nat →
  swap a i j !! m
  = if decide (m = j) then a !! i else if decide (m = i) then a !! j else a !! m.
Proof.
  intros Hi Hj. destruct (swap_in_range a i j Hi Hj) as (x & y & Hx & Hy & ->).
  repeat case_decide; subst.
  - rewrite Hx. rewrite list_lookup_insert_eq; [done|]. by rewrite length_insert.
  - rewrite Hy. rewrite list_lookup_insert_ne by done.
    by rewrite list_lookup_insert_eq.
  - by rewrite !list_lookup_insert_ne.
Qed.

Lemma next_consTape (u : nat) (t : Tape) : next (consTape u t) = t.
Proof. done. Qed.

Lemma fisherYates_reaches {T} (i : nat) (a b : list T) :
  (i < length a)%nat → a ≡ₚ b → drop (S i) a = drop (S i) b →
  ∃ random, (fisherYates i random a).1 = b.
Proof.
  revert a. induction i as [|i IH]; intros a Hi Hperm Hdrop.
  - exists zeroTape. simpl.
    rewrite <- (take_drop 1 a), <- (take_drop 1 b), Hdrop in Hperm.
    apply Permutation_app_inv_r in Hperm.
    rewrite <- (take_drop 1 a), <- (take_drop 1 b), Hdrop. f_equal.
    destruct a as [|x a]; [simpl in Hi; lia|].
    destruct b as [|y b]; [by apply Permutation_nil_r in Hperm|].
    simpl in *. by apply Permutation_singleton_inj in Hperm as ->.
  - pose proof (Permutation_length Hperm) as Hlen.
    destruct (lookup_lt_is_Some_2 b (S i)) as [x Hx]; [lia|].
    assert (Hprefix : take (S (S i)) a ≡ₚ take (S (S i)) b).
    { apply (Permutation_app_inv_r (drop (S (S i)) a)).
      rewrite take_drop, Hdrop. by rewrite take_drop. }
    assert (Hin : x ∈ take (S (S i)) a).
    { rewrite Hprefix. apply list_elem_of_lookup. exists (S i).
      rewrite lookup_take_lt by lia. done. }
    apply list_elem_of_lookup in Hin as [j Hj].
    apply lookup_take_Some in Hj as [Hj Hjlt].
    destruct (IH (swap a (S i) j)) as [random Hrandom].
    + rewrite swap_length. lia.
    + by rewrite swap_perm.
    + apply list_eq. intros k. rewrite !lookup_drop.
      rewrite swap_lookup by (try done; by eapply lookup_lt_Some).
      destruct k as [|k].
      * replace (S i + 0)%nat with (S i) by lia. rewrite Hx.
        repeat case_decide; subst; try done; lia.
      * repeat case_decide; try lia.
        replace (S i + S k)%nat with (S (S i) + k)%nat by lia.
        by rewrite <- !lookup_drop, Hdrop.
    + exists (consTape j random).
      assert (Hdraw : floorMul j (S i + 1) = j).
      { unfold floorMul. apply Nat.mod_small. lia. }
      cbn [fisherYates]. rewrite next_consTape.
      change (consTape j random O) with j. by rewrite Hdraw.
Qed.

(** X6. [shuffleArray] can return every arrangement of its input: for each
    permutation of the array there are draws of [Math.random] under which
    the Fisher-Yates pass produces it. *)
Theorem shuffleArray_reaches {T} (array arrangement : list T) :
  array ≡ₚ arrangement →
  ∃ random, (shuffleArray array random).1 = arrangement.
Proof.
  intros Hperm. unfold shuffleArray. destruct array as [|x array].
  - exists zeroTape. simpl. by apply Permutation_nil_l in Hperm.
  - apply fisherYates_reaches; [simpl; lia|done|].
    pose proof (Permutation_length Hperm) as Hlen.
    rewrite !drop_ge; [done| |]; simpl in *; lia.
Qed.

Lemma shuffleArray_reaches_witness :
  [1; 2; 3] ≡ₚ [3; 1; 2]
  ∧ ∃ random, (shuffleArray [1; 2; 3] random).1 = [3; 1; 2].
Proof.
  assert (H : [1; 2; 3] ≡ₚ [3; 1; 2]).
  { apply (Permutation_trans (Permutation_swap 2 1 [3])).
    change ([2; 1; 3]) with ([2] ++ [1; 3]).
    etrans; [apply Permutation_app_comm|]. simpl.
    apply (Permutation_trans (Permutation_swap 3 1 [2])). done. }
  split; [exact H|]. exact (shuffleArray_reaches [1; 2; 3] [3; 1; 2] H).
Defined.

Lemma randomPass_reaches {T} (todo i : nat) (a b : list T) :
  (i + todo = length a)%nat → a ≡ₚ b → take i a = take i b →
  ∃ random, (randomPass todo i random a).1 = b.
Proof.
  revert i a. induction todo as [|todo IH]; intros i a Hi Hperm Htake.
  - exists zeroTape. simpl. pose proof (Permutation_length Hperm) as Hlen.
    rewrite <- (take_ge a i), <- (take_ge b i) by lia. done.
  - pose proof (Permutation_length Hperm) as Hlen.
    destruct (lookup_lt_is_Some_2 b i) as [x Hx]; [lia|].
    assert (Hsuffix : drop i a ≡ₚ drop i b).
    { apply (Permutation_app_inv_l (take i a)).
      rewrite take_drop. rewrite Htake. by rewrite take_drop. }
    assert (Hin : x ∈ drop i a).
    { rewrite Hsuffix. apply list_elem_of_lookup. exists O.
      rewrite lookup_drop. by replace (i + 0)%nat with i by lia. }
    apply list_elem_of_lookup in Hin as [k Hk]. rewrite lookup_drop in Hk.
    pose proof (lookup_lt_Some _ _ _ Hk) as Hklt.
    destruct (IH (S i) (swap a i (i + k))) as [random Hrandom].
    + rewrite swap_length. lia.
    + by rewrite swap_perm.
    + apply list_eq. intros m. rewrite !lookup_take.
      case_decide as Hm; [|done].
      rewrite swap_lookup by lia.
      destruct (decide (m = i)) as [->|Hne].
      * rewrite Hx. repeat case_decide; try done; try lia.
        by replace i with (i + k)%nat at 1 by lia.
      * repeat case_decide; try lia.
        rewrite <- (lookup_take_lt a i m), <- (lookup_take_lt b i m) by lia.
        by rewrite Htake.
    + exists (consTape (i + k) random).
      assert (Hdraw : floorMul (i + k) (length a) = (i + k)%nat).
      { unfold floorMul. by apply Nat.mod_small. }
      cbn [randomPass]. rewrite next_consTape.
      change (consTape (i + k) random O) with (i + k)%nat. by rewrite Hdraw.
Qed.

(** X7. Whatever the session identifier and the seeded generator,
    [advancedShuffle] can return every arrangement of its input: the
    unseeded second pass alone reaches each permutation, so the seed does
    not fix or restrict the final order. *)
Theorem advancedShuffle_reaches {T} (seededRandom : Z → Tape) (array arrangement : list T)
    (sessionId : option string) (now : Z) :
  array ≡ₚ arrangement →
  ∃ random, (advancedShuffle seededRandom array sessionId now random).1 = arrangement.
Proof.
  intros Hperm.
  set (seeded := (fisherYates (length array - 1)
                    (seededRandom (sessionSeed sessionId now)) array).1).
  assert (Hseeded : seeded ≡ₚ array) by apply fisherYates_perm.
  destruct (randomPass_reaches (length seeded) 0 seeded arrangement)
    as [random Hrandom].
  - done.
  - by rewrite Hseeded.
  - done.
  - exists random. by rewrite advancedShuffle_passes.
Qed.

Lemma advancedShuffle_reaches_witness :
  [1; 2; 3] ≡ₚ [2; 1; 3]
  ∧ ∃ random,
      (advancedShuffle constantSeeded [1; 2; 3] (Some "session") 0 random).1 = [2; 1; 3].
Proof.
  assert (H : [1; 2; 3] ≡ₚ [2; 1; 3]) by apply Permutation_swap.
  split; [exact H|].
  exact (advancedShuffle_reaches constantSeeded [1; 2; 3] [2; 1; 3] (Some "session") 0 H).
Defined.

(** ** Option shuffling, beyond valid indices *)

(** X8. A question whose correct index is outside its options (negative,
    or not below the number of options) leaves [shuffleQuestionOptions] with
    correct index -1: the looked-up answer is [undefined], which [indexOf]
    does not find. *)
Theorem shuffleOptions_invalid_index (q : Question) (random : Tape) :
  ¬ (0 ≤ correct q < Z.of_nat (length (options q))) →
  correct (shuffleOptions q random).1 = -1.
Proof.
  intros Hinvalid. unfold shuffleOptions.
  destruct (shuffleArray (options q) random) as [shuffledOptions rest]. simpl.
  assert (at_index (options q) (correct q) = None) as ->; [|done].
  unfold at_index. destruct (correct q <? 0) eqn:Hneg; [done|].
  apply lookup_ge_None. lia.
Qed.

Lemma shuffleOptions_invalid_index_witness :
  ¬ (0 ≤ correct strayIndex < Z.of_nat (length (options strayIndex)))
  ∧ correct (shuffleOptions strayIndex zeroTape).1 = -1.
Proof.
  assert (H : ¬ (0 ≤ correct strayIndex < Z.of_nat (length (options strayIndex)))).
  { simpl. lia. }
  split; [exact H|]. exact (shuffleOptions_invalid_index strayIndex zeroTape H).
Defined.

(** X9. [shuffleQuestionOptions] works question by question and keeps the
    order of the batch: the k-th result is the k-th question with the same
    text, difficulty, topic and source, with a rearrangement of the same
    options, and with [originalOrder] set to false. *)
Theorem shuffleQuestionOptions_pointwise (questions : list Question) (random : Tape) :
  Forall2
    (λ q q', question q' = question q ∧ difficulty q' = difficulty q
             ∧ topic q' = topic q ∧ source q' = source q
             ∧ options q' ≡ₚ options q ∧ originalOrder q' = Some false)
    questions (shuffleQuestionOptions questions random).1.
Proof.
  revert random. induction questions as [|q rest IH]; intros random; simpl.
  - constructor.
  - destruct (shuffleOptions q random) as [q1 r1] eqn:H1.
    specialize (IH r1). destruct (shuffleQuestionOptions rest r1) as [rest' r2].
    simpl in *. constructor; [|done].
    unfold shuffleOptions in H1.
    pose proof (shuffleArray_perm (options q) random) as Hperm.
    destruct (shuffleArray (options q) random) as [shuffledOptions r].
    by simplify_eq.
Qed.

Lemma shuffleOptions_tracks_distinct_witness :
  (NoDup (options plainOptions)
   ∧ 0 ≤ correct plainOptions < Z.of_nat (length (options plainOptions)))
  ∧ correct (shuffleOptions plainOptions zeroTape).1
    = trackedCorrectIndex plainOptions zeroTape.
Proof.
  assert (Hnd : NoDup (options plainOptions)).
  { refine (bool_decide_unpack _ _). by_evaluation. }
  assert (Hvalid : 0 ≤ correct plainOptions < Z.of_nat (length (options plainOptions))).
  { simpl. lia. }
  split; [by split|].
  exact (shuffleOptions_tracks_distinct plainOptions zeroTape Hnd Hvalid).
Defined.

(** ** The difficulty mix of a batch *)

Lemma slice_all {T} (a : list T) (end_ : Z) :
  Z.of_nat (length a) ≤ end_ → slice a 0 end_ = a.
Proof.
  intros Hend. unfold slice. replace (0 <? 0) with false by lia.
  replace (end_ <? 0) with false by lia.
  replace (Z.to_nat (Z.min 0 (Z.of_nat (length a)))) with O by lia.
  rewrite drop_0. apply take_ge. lia.
Qed.

Lemma selectedBatch_cut db realm count random :
  selectedBatch db realm count random = slice (selectedAll db realm count random) 0 count.
Proof.
  unfold selectedBatch, selectedAll, getBalancedQuestionMix, availablePool, cooldownKey.
  destruct (filterRecentlyUsedQuestions _ _ (recentlyUsedQuestions db))
    as [available used1]. simpl.
  by destruct (selectQuestions available count random).
Qed.

Lemma tierSize_total (questions : list Obj) :
  (tierSize easy questions + tierSize medium questions + tierSize hard questions
   = length questions)%nat.
Proof.
  unfold tierSize. rewrite <- (tiers_partition questions) at 4.
  rewrite !length_app. lia.
Qed.

(** X11. When the hard target [count - 2 * ceil(0.4 * count)] is not
    negative and every tier has at least its target among the candidates
    left by the cooldown filter, the batch has exactly [ceil(0.4 * count)]
    easy questions, as many medium ones and the remainder hard ones, [count]
    in all: the fill adds nothing and the cut removes nothing. *)
Theorem selectedBatch_mix (db : QuestionDatabase) (realm : string) (count : Z)
    (random : Tape) :
  let pool := availablePool db realm in
  let hardTarget := count - ceil_04 count - ceil_04 count in
  let batch := selectedBatch db realm count random in
  0 ≤ count → 0 ≤ hardTarget →
  ceil_04 count ≤ Z.of_nat (tierSize easy pool) →
  ceil_04 count ≤ Z.of_nat (tierSize medium pool) →
  hardTarget ≤ Z.of_nat (tierSize hard pool) →
  tierSize easy batch = Z.to_nat (ceil_04 count)
  ∧ tierSize medium batch = Z.to_nat (ceil_04 count)
  ∧ tierSize hard batch = Z.to_nat hardTarget
  ∧ length batch = Z.to_nat count.
Proof.
  intros pool hardTarget batch Hcount Hhard Heasy Hmedium Hhardsize.
  assert (Hceil : 0 ≤ ceil_04 count).
  { unfold ceil_04. apply Z.div_pos; lia. }
  destruct (tierPicks_counts pool count random Hcount) as (He & Hm & Hh).
  specialize (Hh Hhard). fold hardTarget in Hh.
  pose proof (tierSize_total (tierPicks pool count random).1) as Htotal.
  unfold tierSize in *.
  assert (Hbatch : batch = (tierPicks pool count random).1).
  { unfold batch. rewrite selectedBatch_cut. unfold selectedAll, selectQuestions.
    fold pool. destruct (tierPicks pool count random) as [picks r1]. simpl in *.
    unfold fill. replace (Z.of_nat (length picks) <? count) with false by lia.
    simpl. apply slice_all. lia. }
  rewrite Hbatch. repeat split; lia.
Qed.

Lemma selectedBatch_mix_witness :
  (0 ≤ 10 ∧ 0 ≤ 10 - ceil_04 10 - ceil_04 10
   ∧ ceil_04 10 ≤ Z.of_nat (tierSize easy (availablePool newQuestionDatabase "gaming"))
   ∧ ceil_04 10 ≤ Z.of_nat (tierSize medium (availablePool newQuestionDatabase "gaming"))
   ∧ 10 - ceil_04 10 - ceil_04 10
     ≤ Z.of_nat (tierSize hard (availablePool newQuestionDatabase "gaming")))
  ∧ tierSize easy (selectedBatch newQuestionDatabase "gaming" 10 zeroTape) = 4%nat
  ∧ tierSize medium (selectedBatch newQuestionDatabase "gaming" 10 zeroTape) = 4%nat
  ∧ tierSize hard (selectedBatch newQuestionDatabase "gaming" 10 zeroTape) = 2%nat
  ∧ length (selectedBatch newQuestionDatabase "gaming" 10 zeroTape) = 10%nat.
Proof.
  assert (H1 : 0 ≤ 10) by lia.
  assert (H2 : 0 ≤ 10 - ceil_04 10 - ceil_04 10) by by_evaluation.
  assert (H3 : ceil_04 10
               ≤ Z.of_nat (tierSize easy (availablePool newQuestionDatabase "gaming")))
    by by_evaluation.
  assert (H4 : ceil_04 10
               ≤ Z.of_nat (tierSize medium (availablePool newQuestionDatabase "gaming")))
    by by_evaluation.
  assert (H5 : 10 - ceil_04 10 - ceil_04 10
               ≤ Z.of_nat (tierSize hard (availablePool newQuestionDatabase "gaming")))
    by by_evaluation.
  split; [by repeat split|].
  exact (selectedBatch_mix newQuestionDatabase "gaming" 10 zeroTape H1 H2 H3 H4 H5).
Defined.

(** ** The cooldown across requests *)

Lemma getRandomQuestions_bank seededRandom db realm count sessionId now random :
  questionBank (getRandomQuestions seededRandom db realm count sessionId now random).1.2
  = questionBank db.
Proof.
  unfold getRandomQuestions.
  destruct (getBalancedQuestionMix _ count _ random) as [[questions used] r1].
  destruct (shuffleQuestionOptions questions.*2 r1) as [shuffled r2].
  by destruct (advancedShuffle seededRandom shuffled sessionId now r2).
Qed.

Lemma cooldownKey_bank (db1 db2 : QuestionDatabase) (realm : string) :
  questionBank db1 = questionBank db2 → cooldownKey db1 realm = cooldownKey db2 realm.
Proof.
  intros Hbank. unfold cooldownKey. by rewrite (realmCandidates_bank db1 db2).
Qed.

(** The cooldown map after a request: the filter's map with all the
    selected questions recorded under the realm's key. *)
Lemma getRandomQuestions_recorded seededRandom db realm count sessionId now random :
  recentlyUsedQuestions
    (getRandomQuestions seededRandom db realm count sessionId now random).1.2
  = trackRecentlyUsedQuestions (selectedAll db realm count random) (cooldownKey db realm)
      (filterRecentlyUsedQuestions (spread (realmCandidates db realm))
         (cooldownKey db realm) (recentlyUsedQuestions db)).2.
Proof.
  rewrite getRandomQuestions_used.
  unfold getBalancedQuestionMix, selectedAll, availablePool, cooldownKey.
  destruct (filterRecentlyUsedQuestions _ _ (recentlyUsedQuestions db))
    as [available used1]. simpl.
  by destruct (selectQuestions available count random).
Qed.

Lemma filterRecentlyUsedQuestions_other (questions : list Obj) realm used r :
  r ≠ realm → (filterRecentlyUsedQuestions questions realm used).2 !! r = used !! r.
Proof.
  intros Hne. unfold filterRecentlyUsedQuestions. case_match; simpl; [|done].
  by rewrite lookup_insert_ne.
Qed.

Lemma filterRecentlyUsedQuestions_served (questions : list Obj) realm used :
  (length (default [] ((filterRecentlyUsedQuestions questions realm used).2 !! realm))
   ≤ length (default [] (used !! realm)))%nat.
Proof.
  unfold filterRecentlyUsedQuestions. case_match; simpl; [|done].
  rewrite lookup_insert_eq. simpl. lia.
Qed.

Lemma inserted_length (s ids : list string) :
  (length (foldl set_add s ids) ≤ length s + length ids)%nat.
Proof.
  revert s. induction ids as [|x ids IH]; intros s; simpl; [lia|].
  etrans; [apply IH|]. unfold set_add. case_bool_decide; [lia|].
  rewrite length_app. simpl. lia.
Qed.

Lemma selectedAll_sub db realm count random :
  selectedAll db realm count random ⊆+ availablePool db realm.
Proof. apply selectQuestions_sub, availablePool_NoDup. Qed.

(** X12. A request changes the cooldown set of one key only, the lower-cased
    topic of the realm's first candidate; the sets under all other keys are
    what they were. *)
Theorem getRandomQuestions_other_keys (seededRandom : Z → Tape) (db : QuestionDatabase)
    (realm : string) (count : Z) (sessionId : option string) (now : Z) (random : Tape)
    (key : string) :
  key ≠ cooldownKey db realm →
  recentlyUsedQuestions
    (getRandomQuestions seededRandom db realm count sessionId now random).1.2 !! key
  = recentlyUsedQuestions db !! key.
Proof.
  intros Hkey. rewrite getRandomQuestions_recorded.
  rewrite trackRecentlyUsedQuestions_other by done.
  by apply filterRecentlyUsedQuestions_other.
Qed.

Lemma getRandomQuestions_other_keys_witness :
  "gaming" ≠ cooldownKey newQuestionDatabase "worldnews"
  ∧ recentlyUsedQuestions afterWorldnews !! "gaming"
    = recentlyUsedQuestions newQuestionDatabase !! "gaming".
Proof.
  assert (H : "gaming" ≠ cooldownKey newQuestionDatabase "worldnews") by by_evaluation.
  split; [exact H|].
  exact (getRandomQuestions_other_keys constantSeeded newQuestionDatabase "worldnews" 2
           None 0 zeroTape "gaming" H).
Defined.

(** X13. Unless the cooldown is reset, no question on cooldown is served:
    when at least 6 candidates of the realm are off cooldown, no selected
    question has its identity in the served set the request consults. *)
Theorem getRandomQuestions_respects_cooldown (db : QuestionDatabase) (realm : string)
    (count : Z) (random : Tape) (q : Obj) :
  (6 ≤ length (freshCandidates db realm))%nat →
  q ∈ selectedBatch db realm count random →
  getQuestionId q.2 ∉ servedSet db realm.
Proof.
  intros Hfresh Hq.
  assert (Hpool : q ∈ availablePool db realm).
  { eapply elem_of_submseteq; [exact Hq|apply selectedBatch_sub]. }
  rewrite availablePool_cases in Hpool. case_decide; [lia|].
  unfold freshCandidates in Hpool. by apply list_elem_of_filter in Hpool as [? _].
Qed.

Lemma getRandomQuestions_respects_cooldown_witness :
  ((6 ≤ length (freshCandidates afterGaming "gaming"))%nat
   ∧ firstSelected afterGaming "gaming" 6 ∈ selectedBatch afterGaming "gaming" 6 zeroTape)
  ∧ getQuestionId (firstSelected afterGaming "gaming" 6).2 ∉ servedSet afterGaming "gaming".
Proof.
  assert (H1 : (6 ≤ length (freshCandidates afterGaming "gaming"))%nat).
  { vm_compute. lia. }
  assert (H2 : firstSelected afterGaming "gaming" 6
               ∈ selectedBatch afterGaming "gaming" 6 zeroTape).
  { vm_compute. apply list_elem_of_here. }
  split; [by split|].
  exact (getRandomQuestions_respects_cooldown afterGaming "gaming" 6 zeroTape _ H1 H2).
Defined.

(** X14. Two requests in a row for one realm do not serve the same identity
    twice, provided the first request cannot overflow the served set (the
    set and the realm's candidates together hold at most 60 entries) and the
    second one finds at least 6 candidates off cooldown, so that it does not
    reset the cooldown. *)
Theorem getRandomQuestions_no_immediate_repeat (seededRandom : Z → Tape)
    (db : QuestionDatabase) (realm : string) (count1 count2 : Z)
    (sessionId : option string) (now : Z) (random1 random2 : Tape) (q1 q2 : Obj) :
  let next_db :=
    (getRandomQuestions seededRandom db realm count1 sessionId now random1).1.2 in
  (length (servedSet db realm) + length (realmCandidates db realm) ≤ 60)%nat →
  (6 ≤ length (freshCandidates next_db realm))%nat →
  q1 ∈ selectedBatch db realm count1 random1 →
  q2 ∈ selectedBatch next_db realm count2 random2 →
  getQuestionId q1.2 ≠ getQuestionId q2.2.
Proof.
  intros next_db Hroom Hfresh Hq1 Hq2 Heq.
  assert (Hbank : questionBank next_db = questionBank db)
    by apply getRandomQuestions_bank.
  assert (Hkey : cooldownKey next_db realm = cooldownKey db realm)
    by by apply cooldownKey_bank.
  (* the second batch avoids the served set of the database it starts from *)
  assert (Hpool : q2 ∈ availablePool next_db realm).
  { eapply elem_of_submseteq; [exact Hq2|apply selectedBatch_sub]. }
  rewrite availablePool_cases in Hpool. case_decide; [lia|].
  unfold freshCandidates in Hpool.
  apply list_elem_of_filter in Hpool as [Hnotin _]. apply Hnotin.
  (* the first batch is recorded there *)
  rewrite Hkey. unfold next_db. rewrite getRandomQuestions_recorded.
  rewrite trackRecentlyUsedQuestions_lookup.
  set (served := default [] (_ !! cooldownKey db realm)).
  set (inserted := foldl set_add served _).
  assert (Hin : getQuestionId q1.2 ∈ inserted).
  { apply inserted_elem. right. rewrite selectedBatch_cut in Hq1.
    apply (list_elem_of_fmap_2 (getQuestionId ∘ snd)).
    eapply elem_of_submseteq; [exact Hq1|]. apply sublist_submseteq, slice_sublist. }
  assert (Hlen : (length inserted ≤ 60)%nat).
  { etrans; [apply inserted_length|]. rewrite length_fmap.
    pose proof (filterRecentlyUsedQuestions_served (spread (realmCandidates db realm))
                  (cooldownKey db realm) (recentlyUsedQuestions db)) as Hserved.
    fold served in Hserved.
    pose proof (submseteq_length _ _ (selectedAll_sub db realm count1 random1)) as H1.
    pose proof (submseteq_length _ _ (availablePool_sub db realm)) as H2.
    rewrite spread_length in H2. unfold servedSet in Hroom.
    etrans; [|exact Hroom].
    apply Nat.add_le_mono; [exact Hserved|]. etrans; [exact H1|exact H2]. }
  case_decide; [lia|]. simpl. by rewrite <- Heq.
Qed.

Lemma getRandomQuestions_no_immediate_repeat_witness :
  ((length (servedSet newQuestionDatabase "gaming")
    + length (realmCandidates newQuestionDatabase "gaming") ≤ 60)%nat
   ∧ (6 ≤ length (freshCandidates afterGaming "gaming"))%nat
   ∧ firstSelected newQuestionDatabase "gaming" 6
     ∈ selectedBatch newQuestionDatabase "gaming" 6 zeroTape
   ∧ firstSelected afterGaming "gaming" 6 ∈ selectedBatch afterGaming "gaming" 6 zeroTape)
  ∧ getQuestionId (firstSelected newQuestionDatabase "gaming" 6).2
    ≠ getQuestionId (firstSelected afterGaming "gaming" 6).2.
Proof.
  assert (H1 : (length (servedSet newQuestionDatabase "gaming")
                + length (realmCandidates newQuestionDatabase "gaming") ≤ 60)%nat).
  { vm_compute. lia. }
  assert (H2 : (6 ≤ length (freshCandidates afterGaming "gaming"))%nat).
  { vm_compute. lia. }
  assert (H3 : firstSelected newQuestionDatabase "gaming" 6
               ∈ selectedBatch newQuestionDatabase "gaming" 6 zeroTape).
  { vm_compute. apply list_elem_of_here. }
  assert (H4 : firstSelected afterGaming "gaming" 6
               ∈ selectedBatch afterGaming "gaming" 6 zeroTape).
  { vm_compute. apply list_elem_of_here. }
  split; [by repeat split|].
  exact (getRandomQuestions_no_immediate_repeat constantSeeded newQuestionDatabase
           "gaming" 6 6 None 0 zeroTape zeroTape _ _ H1 H2 H3 H4).
Defined.

(** ** How many questions a request returns *)

Lemma getRandomQuestions_size seededRandom db realm count sessionId now random :
  0 ≤ count →
  Z.of_nat (length (getRandomQuestions seededRandom db realm count sessionId now
                      random).1.1)
  = Z.min count (Z.of_nat (length (availablePool db realm))).
Proof.
  intros Hcount. rewrite getRandomQuestions_length, selectedBatch_length by done. lia.
Qed.

Lemma availablePool_floor db realm :
  (0 < length (availablePool db realm))%nat
  ∧ ((6 ≤ length (realmCandidates db realm))%nat →
     (6 ≤ length (availablePool db realm))%nat).
Proof.
  rewrite availablePool_cases. case_decide as Hfresh.
  - rewrite spread_length. split; [|done].
    pose proof (realmCandidates_nonempty db realm).
    destruct (realmCandidates db realm); [done|simpl; lia].
  - split; [lia|]. intros _. lia.
Qed.

(** X15. For a count that is not negative [getRandomQuestions] returns
    [min(count, p)] questions, where [p] is the number of candidates left by
    the cooldown filter: never more than [count], at least one when [count]
    is positive, and at least [min(count, 6)] when the realm has 6 candidates
    or more, whatever is on cooldown. *)
Theorem getRandomQuestions_floor (seededRandom : Z → Tape) (db : QuestionDatabase)
    (realm : string) (count : Z) (sessionId : option string) (now : Z) (random : Tape) :
  0 ≤ count →
  let n := Z.of_nat (length (getRandomQuestions seededRandom db realm count sessionId
                               now random).1.1) in
  n = Z.min count (Z.of_nat (length (availablePool db realm)))
  ∧ n ≤ count
  ∧ (1 ≤ count → 1 ≤ n)
  ∧ ((6 ≤ length (realmCandidates db realm))%nat → Z.min count 6 ≤ n).
Proof.
  intros Hcount n. unfold n. rewrite getRandomQuestions_size by done.
  destruct (availablePool_floor db realm) as [Hpos Hsix].
  split; [done|]. split; [lia|]. split; [lia|].
  intros Hcands. specialize (Hsix Hcands). lia.
Qed.

Lemma getRandomQuestions_floor_witness :
  0 ≤ 50
  ∧ Z.of_nat (length (getRandomQuestions constantSeeded afterGaming "gaming" 50 None 0
                        zeroTape).1.1)
    = Z.min 50 (Z.of_nat (length (availablePool afterGaming "gaming"))).
Proof.
  assert (H : 0 ≤ 50) by lia.
  split; [exact H|].
  exact (proj1 (getRandomQuestions_floor constantSeeded afterGaming "gaming" 50 None 0
                  zeroTape H)).
Defined.

(** ** Clearing every cooldown *)

(** X16. [clearRecentlyUsedQuestions] without a realm, or with the empty
    string, forgets every served set: afterwards no candidate of any realm is
    filtered out. *)
Theorem clearRecentlyUsedQuestions_all (db : QuestionDatabase) (realm : string) :
  clearRecentlyUsedQuestions db (Some "") = clearRecentlyUsedQuestions db None
  ∧ recentlyUsedQuestions (clearRecentlyUsedQuestions db None) = ∅
  ∧ servedSet (clearRecentlyUsedQuestions db None) realm = []
  ∧ availablePool (clearRecentlyUsedQuestions db None) realm
    = spread (realmCandidates db realm).
Proof.
  split; [done|]. split; [done|].
  assert (Hserved : servedSet (clearRecentlyUsedQuestions db None) realm = []).
  { unfold servedSet. simpl. by rewrite lookup_empty. }
  split; [done|].
  rewrite availablePool_cases. unfold freshCandidates.
  fold (servedSet (clearRecentlyUsedQuestions db None) realm). rewrite Hserved.
  case_decide; [done|]. apply filter_all. intros q. apply not_elem_of_nil.
Qed.

(** ** The question list of [/api/init] *)

Lemma supplement_length (seededRandom : Z → Tape) (randomSuffix : nat → string)
    (questions : list Question) (db : QuestionDatabase) (now2 : Z) (random : Tape) :
  (6 ≤ length (realmCandidates db "general"))%nat →
  length
    (if Z.of_nat (length questions) <? 6
     then
       let '(sessionId, random) := newSessionId randomSuffix now2 random in
       let '(additionalQuestions, db, random) :=
         getRandomQuestions seededRandom db "general" (6 - Z.of_nat (length questions))
           (Some sessionId) now2 random in
       (questions ++ additionalQuestions, db, random)
     else (questions, db, random)).1.1
  = Nat.max 6 (length questions).
Proof.
  intros Hgeneral. destruct (Z.of_nat (length questions) <? 6) eqn:Hlt.
  - unfold newSessionId.
    pose proof (getRandomQuestions_size seededRandom db "general"
                  (6 - Z.of_nat (length questions))
                  (Some (string_of_Z now2 +:+ "-" +:+ randomSuffix (random O)))
                  now2 (next random)) as Hsize.
    destruct (availablePool_floor db "general") as [_ Hsix]. specialize (Hsix Hgeneral).
    destruct (getRandomQuestions seededRandom db "general" _ _ now2 (next random))
      as [[additionalQuestions db2] r2].
    simpl in *. rewrite length_app. lia.
  - simpl. lia.
Qed.

(** X18. The question list the [/api/init] handler builds has at least 6
    questions whenever the realm "general" has 6 candidates or more: the
    generated questions when there are 6 of them or more, else completed to
    exactly 6 from the general questions; and between 6 and 50 questions
    when the generator threw. *)
Theorem initQuestions_at_least_six (seededRandom : Z → Tape)
    (randomSuffix : nat → string) (generated : option (list Question))
    (db : QuestionDatabase) (realm : string) (now1 now2 : Z) (random : Tape) :
  (6 ≤ length (realmCandidates db "general"))%nat →
  let n :=
    length (initQuestions seededRandom randomSuffix generated db realm now1 now2
              random).1.1 in
  (6 ≤ n)%nat
  ∧ match generated with
    | Some questions => n = Nat.max 6 (length questions)
    | None => (n ≤ 50)%nat
    end.
Proof.
  intros Hgeneral n. destruct generated as [questions|].
  - assert (n = Nat.max 6 (length questions)) as ->; [|split; [lia|done]].
    unfold n, initQuestions. by rewrite supplement_length.
  - enough (Hn : ∃ questions : list Question,
                   (length questions ≤ 50)%nat ∧ n = Nat.max 6 (length questions)).
    { destruct Hn as (questions & Hle & ->). lia. }
    unfold n, initQuestions. unfold newSessionId at 1.
    pose proof (getRandomQuestions_size seededRandom db realm 50
                  (Some (string_of_Z now1 +:+ "-" +:+ randomSuffix (random O)))
                  now1 (next random)) as Hsize.
    pose proof (getRandomQuestions_bank seededRandom db realm 50
                  (Some (string_of_Z now1 +:+ "-" +:+ randomSuffix (random O)))
                  now1 (next random)) as Hbank.
    destruct (getRandomQuestions seededRandom db realm 50 _ now1 (next random))
      as [[questions db1] r1].
    cbn [fst snd] in Hsize, Hbank. specialize (Hsize ltac:(lia)).
    exists questions. split; [lia|].
    apply supplement_length.
    by rewrite (realmCandidates_bank db1 db "general" Hbank).
Qed.

Lemma initQuestions_at_least_six_witness :
  (6 ≤ length (realmCandidates newQuestionDatabase "general"))%nat
  ∧ (6 ≤ length (initQuestions constantSeeded (λ _, "abc") (Some [plainOptions])
                   newQuestionDatabase "gaming" 0 0 zeroTape).1.1)%nat.
Proof.
  assert (H : (6 ≤ length (realmCandidates newQuestionDatabase "general"))%nat).
  { vm_compute. lia. }
  split; [exact H|].
  exact (proj1 (initQuestions_at_least_six constantSeeded (λ _, "abc")
                  (Some [plainOptions]) newQuestionDatabase "gaming" 0 0 zeroTape H)).
Defined.

(** ** What the served sets hold *)

Lemma filterRecentlyUsedQuestions_served_cases (questions : list Obj) realm used :
  default [] ((filterRecentlyUsedQuestions questions realm used).2 !! realm) = []
  ∨ default [] ((filterRecentlyUsedQuestions questions realm used).2 !! realm)
    = default [] (used !! realm).
Proof.
  unfold filterRecentlyUsedQuestions. case_match; [left|by right].
  cbn [snd]. by rewrite lookup_insert_eq.
Qed.

Lemma filterRecentlyUsedQuestions_served_value (questions : list Obj) realm used :
  default [] ((filterRecentlyUsedQuestions questions realm used).2 !! realm)
  = if decide (length (filter (λ q, getQuestionId q.2 ∉ default [] (used !! realm))
                         questions) < 6)%nat
    then [] else default [] (used !! realm).
Proof.
  rewrite filterRecentlyUsedQuestions_cases.
  destruct (decide (length _ < 6)%nat); cbn [snd]; [|done].
  by rewrite lookup_insert_eq.
Qed.

Lemma selectedAll_candidate db realm count random (q : Obj) :
  q ∈ selectedAll db realm count random → q.2 ∈ realmCandidates db realm.
Proof.
  intros Hq.
  assert (Hin : q ∈ spread (realmCandidates db realm)).
  { eapply elem_of_submseteq; [|apply availablePool_sub].
    eapply elem_of_submseteq; [exact Hq|apply selectedAll_sub]. }
  apply (list_elem_of_fmap_2 snd) in Hin. by rewrite spread_snd in Hin.
Qed.

(** X19. The served sets never hold anything but identities of corpus
    questions: in every database the public operations can produce, each
    member of the set under a key is the identity of a candidate of a realm
    with that cooldown key, and no set lists an identity twice. *)
Theorem served_identities_from_corpus (seededRandom : Z → Tape) (db : QuestionDatabase) :
  reachable seededRandom db →
  ∀ key served, recentlyUsedQuestions db !! key = Some served →
    NoDup served
    ∧ ∀ id, id ∈ served →
        ∃ realm q, cooldownKey db realm = key ∧ q ∈ realmCandidates db realm
                   ∧ getQuestionId q = id.
Proof.
  induction 1 as [bank|db realm count sessionId now random Hreach IH
                  |db realm Hreach IH]; intros key served Hserved.
  - simpl in Hserved. by rewrite lookup_empty in Hserved.
  - set (next_db := (getRandomQuestions seededRandom db realm count sessionId now
                       random).1.2) in *.
    assert (Hbank : questionBank next_db = questionBank db)
      by apply getRandomQuestions_bank.
    assert (Hsame : ∀ id,
              (∃ r q, cooldownKey db r = key ∧ q ∈ realmCandidates db r
                      ∧ getQuestionId q = id) →
              ∃ r q, cooldownKey next_db r = key ∧ q ∈ realmCandidates next_db r
                     ∧ getQuestionId q = id).
    { intros id (r & q & Hk & Hq & Hid). exists r, q.
      rewrite (cooldownKey_bank next_db db r Hbank).
      by rewrite (realmCandidates_bank next_db db r Hbank). }
    unfold next_db in Hserved. rewrite getRandomQuestions_recorded in Hserved.
    destruct (decide (key = cooldownKey db realm)) as [->|Hne].
    + rewrite trackRecentlyUsedQuestions_lookup in Hserved.
      set (before := default [] (_ !! cooldownKey db realm)) in Hserved.
      set (inserted := foldl set_add before _) in Hserved.
      assert (Hbefore : NoDup before
                ∧ ∀ id, id ∈ before →
                    ∃ r q, cooldownKey db r = cooldownKey db realm
                           ∧ q ∈ realmCandidates db r ∧ getQuestionId q = id).
      { unfold before.
        destruct (filterRecentlyUsedQuestions_served_cases
                    (spread (realmCandidates db realm)) (cooldownKey db realm)
                    (recentlyUsedQuestions db)) as [-> | ->].
        - split; [constructor|]. intros id Hid. by apply elem_of_nil in Hid.
        - destruct (recentlyUsedQuestions db !! cooldownKey db realm) as [old|] eqn:Hold.
          + simpl. by apply IH.
          + simpl. split; [constructor|]. intros id Hid. by apply elem_of_nil in Hid. }
      destruct Hbefore as [Hnd Hfrom].
      assert (Hsub : served `sublist_of` inserted).
      { simplify_eq. case_decide; [apply slice_sublist|done]. }
      split.
      * eapply sublist_NoDup; [|exact Hsub]. by apply inserted_NoDup.
      * intros id Hid. apply Hsame.
        assert (Hin : id ∈ inserted).
        { eapply elem_of_submseteq; [exact Hid|by apply sublist_submseteq]. }
        apply inserted_elem in Hin as [Hin|Hin]; [by apply Hfrom|].
        apply list_elem_of_fmap in Hin as (q & -> & Hq).
        exists realm, q.2. split; [done|]. split; [|done].
        by eapply selectedAll_candidate.
    + rewrite trackRecentlyUsedQuestions_other in Hserved by done.
      rewrite filterRecentlyUsedQuestions_other in Hserved by done.
      destruct (IH key served Hserved) as [Hnd Hfrom].
      split; [done|]. intros id Hid. by apply Hsame, Hfrom.
  - assert (Hbank : questionBank (clearRecentlyUsedQuestions db realm) = questionBank db)
      by apply clearRecentlyUsedQuestions_bank.
    assert (Hold : recentlyUsedQuestions db !! key = Some served).
    { unfold clearRecentlyUsedQuestions in Hserved.
      destruct realm as [[|c r]|]; simpl in Hserved;
        try by rewrite lookup_empty in Hserved.
      by apply lookup_delete_Some in Hserved as [_ ?]. }
    destruct (IH key served Hold) as [Hnd Hfrom].
    split; [done|]. intros id Hid.
    destruct (Hfrom id Hid) as (r & q & Hk & Hq & Hidq). exists r, q.
    rewrite (cooldownKey_bank _ db r Hbank).
    by rewrite (realmCandidates_bank _ db r Hbank).
Qed.

Lemma served_identities_from_corpus_witness :
  reachable constantSeeded afterGaming
  ∧ ∀ key served, recentlyUsedQuestions afterGaming !! key = Some served →
      NoDup served
      ∧ ∀ id, id ∈ served →
          ∃ realm q, cooldownKey afterGaming realm = key
                     ∧ q ∈ realmCandidates afterGaming realm ∧ getQuestionId q = id.
Proof.
  assert (H : reachable constantSeeded afterGaming).
  { apply reachable_getRandomQuestions.
    apply (reachable_new constantSeeded initializeQuestionBank). }
  split; [exact H|]. exact (served_identities_from_corpus constantSeeded afterGaming H).
Defined.

(** ** A request for no question *)

Lemma slice_0_0 {T} (a : list T) (end_ : Z) : end_ = 0 → slice a 0 end_ = [].
Proof.
  intros ->. apply length_zero_iff_nil. rewrite slice_0_length by lia. lia.
Qed.

Lemma pushTier_zero (tier selected : list Obj) random :
  (pushTier tier 0 selected random).1 = selected.
Proof.
  unfold pushTier. destruct (0 <? Z.of_nat (length tier)); [|done].
  destruct (shuffleArray tier random) as [shuffled rest]. simpl.
  rewrite slice_0_0; [apply app_nil_r|lia].
Qed.

Lemma selectedAll_zero db realm random : selectedAll db realm 0 random = [].
Proof.
  unfold selectedAll, selectQuestions, tierPicks.
  change (ceil_04 0) with 0. change (0 - 0 - 0) with 0.
  pose proof (pushTier_zero (filter (has_difficulty easy) (availablePool db realm))
                [] random) as H1.
  destruct (pushTier _ 0 [] random) as [s1 r1]. simpl in H1. subst s1.
  pose proof (pushTier_zero (filter (has_difficulty medium) (availablePool db realm))
                [] r1) as H2.
  destruct (pushTier _ 0 [] r1) as [s2 r2]. simpl in H2. subst s2.
  pose proof (pushTier_zero (filter (has_difficulty hard) (availablePool db realm))
                [] r2) as H3.
  destruct (pushTier _ 0 [] r2) as [s3 r3]. simpl in H3. subst s3.
  done.
Qed.

(** X20. A request for 0 questions returns none and records none, but it
    still runs the cooldown filter: when fewer than 6 candidates of the
    realm are off cooldown it empties the realm's served set, otherwise it
    leaves the set as it was (for a set of at most 60 entries). *)
Theorem getRandomQuestions_zero (seededRandom : Z → Tape) (db : QuestionDatabase)
    (realm : string) (sessionId : option string) (now : Z) (random : Tape) :
  (length (servedSet db realm) ≤ 60)%nat →
  let result := getRandomQuestions seededRandom db realm 0 sessionId now random in
  result.1.1 = []
  ∧ recentlyUsedQuestions result.1.2 !! cooldownKey db realm
    = Some (if decide (length (freshCandidates db realm) < 6)%nat
            then [] else servedSet db realm).
Proof.
  intros Hsize result. split.
  - apply length_zero_iff_nil. unfold result.
    pose proof (getRandomQuestions_size seededRandom db realm 0 sessionId now random).
    lia.
  - unfold result. rewrite getRandomQuestions_recorded, selectedAll_zero.
    rewrite trackRecentlyUsedQuestions_lookup. rewrite fmap_nil. cbn [foldl].
    rewrite filterRecentlyUsedQuestions_served_value.
    unfold freshCandidates, servedSet in *.
    destruct (decide (length (filter _ _) < 6)%nat).
    + by rewrite decide_False by (simpl; lia).
    + by rewrite decide_False by lia.
Qed.

Lemma getRandomQuestions_zero_witness :
  (length (servedSet afterWorldnews "worldnews") ≤ 60)%nat
  ∧ (getRandomQuestions constantSeeded afterWorldnews "worldnews" 0 None 0 zeroTape).1.1
    = [].
Proof.
  assert (H : (length (servedSet afterWorldnews "worldnews") ≤ 60)%nat).
  { vm_compute. lia. }
  split; [exact H|].
  exact (proj1 (getRandomQuestions_zero constantSeeded afterWorldnews "worldnews" None 0
                  zeroTape H)).
Defined.
